(** * Agent Watchdog dashboard: state synchronisation and analytics

    A shallow embedding of the client-side logic of the dashboard
    (components [DashboardApp], [RequestList] and [InsightsDashboard]) and the
    properties its specification states about it.

    Conventions of the embedding.
    - A JavaScript string is a [string]; the text is taken to be ASCII, so
      [toLowerCase] folds the letters A-Z and [trim] strips the ASCII white
      space characters.
    - An optional field [f?: T] is an [option T]; [None] is the absent
      ([undefined]) field.
    - A JavaScript object used as a dictionary is a [gmap] or a [gset] of
      its own keys; where the code tests a key for truthiness, the keys that
      every object inherits from [Object.prototype] are looked up as well.
    - A React state cell is a field of a state record, and a functional
      update [setX(prev => e)] is the function [prev => e] applied to it.
    - Values drawn from the platform ([crypto.randomUUID()], [new Date()],
      [fetch]) are inputs of the operation that draws them. *)

From Stdlib Require Import Ascii String ZArith QArith Lia Permutation Sorted.
From stdpp Require Import base list strings gmap sets pretty.


(** ** JavaScript primitives *)

Module Js.

(** [String.prototype.toLowerCase], on ASCII. *)
Definition lower_char (c : ascii) : ascii :=
  let n := nat_of_ascii c in
  if (65 <=? n)%nat && (n <=? 90)%nat then ascii_of_nat (n + 32) else c.

Fixpoint toLowerCase (s : string) : string :=
  match s with
  | EmptyString => EmptyString
  | String c s' => String (lower_char c) (toLowerCase s')
  end.

(** White space as [String.prototype.trim] sees it, on ASCII:
    TAB, LF, VT, FF, CR and SPACE. *)
Definition is_white (c : ascii) : bool :=
  let n := nat_of_ascii c in
  ((9 <=? n)%nat && (n <=? 13)%nat) || (n =? 32)%nat.

Fixpoint trimStart (s : string) : string :=
  match s with
  | EmptyString => EmptyString
  | String c s' => if is_white c then trimStart s' else s
  end.

Fixpoint trimEnd (s : string) : string :=
  match s with
  | EmptyString => EmptyString
  | String c s' =>
      match trimEnd s' with
      | EmptyString => if is_white c then EmptyString else String c EmptyString
      | t => String c t
      end
  end.

Definition trim (s : string) : string := trimEnd (trimStart s).

(** [s.startsWith(p)]. *)
Fixpoint startsWith (s p : string) : bool :=
  match p, s with
  | EmptyString, _ => true
  | String _ _, EmptyString => false
  | String a p', String b s' => if Ascii.eqb a b then startsWith s' p' else false
  end.

(** [s.includes(sub)]: [sub] occurs in [s] as a contiguous substring. *)
Fixpoint includes (s sub : string) : bool :=
  startsWith s sub ||
  match s with
  | EmptyString => false
  | String _ s' => includes s' sub
  end.

(** [Array.prototype.join]. *)
Fixpoint join (sep : string) (l : list string) : string :=
  match l with
  | [] => EmptyString
  | [x] => x
  | x :: l' => x +:+ sep +:+ join sep l'
  end.

(** Truthiness of a value of type [string | undefined]: the absent value and
    the empty string are falsy. *)
Definition truthy (v : option string) : bool :=
  match v with
  | Some s => negb (String.eqb s EmptyString)
  | None => false
  end.

(** A JavaScript number that is either an integer or NaN. *)
Inductive number : Type :=
  | Num (z : Z)
  | NaN.

Definition sub (a b : number) : number :=
  match a, b with
  | Num x, Num y => Num (x - y)
  | _, _ => NaN
  end.

(** [undefined + 1] is NaN, and so is [NaN + 1]. *)
Definition plus_one (v : option number) : number :=
  match v with
  | Some (Num x) => Num (x + 1)
  | _ => NaN
  end.

(** The property names that a plain object inherits from [Object.prototype].
    Each of them holds a function, but for [__proto__], which holds the
    prototype itself: all of them are truthy. *)
Definition objectPrototypeKeys : list string :=
  ["constructor"; "hasOwnProperty"; "isPrototypeOf"; "propertyIsEnumerable";
   "toLocaleString"; "toString"; "valueOf"; "__proto__"; "__defineGetter__";
   "__defineSetter__"; "__lookupGetter__"; "__lookupSetter__"].

(** [key] is not an own key of the object but is found in its prototype. *)
Definition inherited (key : string) : bool :=
  existsb (String.eqb key) objectPrototypeKeys.

(** [s.slice(0, n)] for a count [n] that is not negative: the first [n]
    characters of [s], all of [s] when it is shorter. *)
Fixpoint sliceTo (s : string) (n : nat) : string :=
  match n, s with
  | S n', String c s' => String c (sliceTo s' n')
  | _, _ => EmptyString
  end.

End Js.

(** The substring relation that [Js.includes] decides. *)
Definition Substring (sub s : string) : Prop :=
  exists p r : string, s = p +:+ sub +:+ r.

(** A string that does not begin with white space. *)
Definition startsBlack (s : string) : Prop :=
  match s with
  | EmptyString => True
  | String c _ => Js.is_white c = false
  end.

(** ** DashboardApp: refresh counter, live violation buffer, chat *)

Module DashboardApp.

(** [interface Violation]. The severity is kept as the string that arrived:
    the source copies it from the event without checking it. *)
Record Violation : Type := mkViolation {
  id : string;
  vtype : string;
  description : string;
  severity : string;
  evidence : option string;
  suggestedFix : option string;
  detectedAt : string;
}.

(** [Partial<Violation>]: the payload of a [violation:detected] event. *)
Record PartialViolation : Type := mkPartial {
  p_id : option string;
  p_type : option string;
  p_description : option string;
  p_severity : option string;
  p_evidence : option string;
  p_suggestedFix : option string;
  p_detectedAt : option string;
}.

(** The event's [data], at the type the source casts it to:
    [{ violation?: Partial<Violation> }]. *)
Record EventData : Type := mkData {
  violation : option PartialViolation;
}.

Record Event : Type := mkEvent {
  type : string;
  data : EventData;
}.

Inductive Role : Type := user | assistant.

Record ChatMessage : Type := mkMessage {
  msg_id : string;
  role : Role;
  text : string;
  timestamp : string;
}.

(** What one run of a handler draws from the platform: the result of
    [crypto.randomUUID()] and of [new Date().toISOString()]. *)
Record Fresh : Type := mkFresh {
  randomUUID : string;
  now : string;
}.

(** The state cells of the component that the core logic reads or writes. *)
Record State : Type := mkState {
  refreshTrigger : N;
  violations : list Violation;
  chatInput : string;
  chatLoading : bool;
  messages : list ChatMessage;
}.

Definition setRefreshTrigger (f : N -> N) (s : State) : State :=
  mkState (f (refreshTrigger s)) (violations s) (chatInput s) (chatLoading s) (messages s).

Definition setViolations (f : list Violation -> list Violation) (s : State) : State :=
  mkState (refreshTrigger s) (f (violations s)) (chatInput s) (chatLoading s) (messages s).

Definition setChatInput (v : string) (s : State) : State :=
  mkState (refreshTrigger s) (violations s) v (chatLoading s) (messages s).

Definition setChatLoading (v : bool) (s : State) : State :=
  mkState (refreshTrigger s) (violations s) (chatInput s) v (messages s).

Definition setMessages (f : list ChatMessage -> list ChatMessage) (s : State) : State :=
  mkState (refreshTrigger s) (violations s) (chatInput s) (chatLoading s) (f (messages s)).

Definition initialState (fr : Fresh) : State :=
  mkState 0 [] EmptyString false
    [mkMessage (randomUUID fr) assistant
       "Agent Watchdog assistant is ready. Ask for stats, requests, violations, or blocked agents."
       (now fr)].

(** The guard [incoming?.type && incoming.description && incoming.severity]
    and the record built under it. [None] when the guard is falsy. *)
Definition normalize (fr : Fresh) (incoming : option PartialViolation) : option Violation :=
  match incoming with
  | None => None
  | Some inc =>
      if Js.truthy (p_type inc) && Js.truthy (p_description inc) && Js.truthy (p_severity inc)
      then
        match p_type inc, p_description inc, p_severity inc with
        | Some t, Some d, Some sv =>
            Some (mkViolation (randomUUID fr) t d sv (p_evidence inc) (p_suggestedFix inc) (now fr))
        | _, _, _ => None
        end
      else None
  end.

(** The effect that runs when [lastEvent] changes, on an event whose [data]
    is present; [lastEventEffect] below is the effect on any event. *)
Definition onLastEvent (fr : Fresh) (lastEvent : option Event) (s : State) : State :=
  match lastEvent with
  | None => s
  | Some ev =>
      let s1 :=
        if String.eqb (type ev) "request:processed" || String.eqb (type ev) "killswitch:triggered"
        then setRefreshTrigger (fun prev => (prev + 1)%N) s
        else s in
      if String.eqb (type ev) "violation:detected"
      then
        match normalize fr (violation (data ev)) with
        | Some normalized => setViolations (fun prev => take 8 (normalized :: prev)) s1
        | None => s1
        end
      else s1
  end.

(** [handleKillSwitch], the callback handed to the kill-switch panel. *)
Definition handleKillSwitch (s : State) : State :=
  setRefreshTrigger (fun prev => (prev + 1)%N) s.

(** What can happen to the refresh counter and the buffer. *)
Inductive Action : Type :=
  | LastEvent (fr : Fresh) (lastEvent : option Event)
  | KillSwitch.

Definition step (s : State) (a : Action) : State :=
  match a with
  | LastEvent fr lastEvent => onLastEvent fr lastEvent s
  | KillSwitch => handleKillSwitch s
  end.

Definition run (s : State) (acts : list Action) : State := foldl step s acts.

(** The normalized violation an action ingests, if it ingests one. *)
Definition ingested (a : Action) : option Violation :=
  match a with
  | LastEvent fr (Some ev) =>
      if String.eqb (type ev) "violation:detected"
      then normalize fr (violation (data ev))
      else None
  | _ => None
  end.

(** Whether an action is an event that invalidates the fetched views. *)
Definition invalidates (a : Action) : bool :=
  match a with
  | LastEvent _ (Some ev) =>
      String.eqb (type ev) "request:processed" || String.eqb (type ev) "killswitch:triggered"
  | LastEvent _ None => false
  | KillSwitch => true
  end.

(** A payload that lacks one of the three required fields, or is absent. *)
Definition missingRequired (incoming : option PartialViolation) : Prop :=
  match incoming with
  | None => True
  | Some inc => p_type inc = None \/ p_description inc = None \/ p_severity inc = None
  end.

(** A payload in which one of the three required fields is the empty string. *)
Definition emptyRequired (inc : PartialViolation) : Prop :=
  p_type inc = Some EmptyString \/ p_description inc = Some EmptyString
  \/ p_severity inc = Some EmptyString.

(** A well-formed [violation:detected] event of a given severity. *)
Definition detected (sev : string) : Event :=
  mkEvent "violation:detected"
    (mkData (Some (mkPartial None (Some "policy") (Some "blocked call") (Some sev)
                     None None None))).

(** *** The chat assistant *)

(** What [await fetch(url)] gives: the promise rejects with an error (network
    failure), or it resolves to a response with its [ok] flag and the body
    that [response.json()] yields. *)
Record Response (T : Type) : Type := mkResponse {
  ok : bool;
  json : T;
}.
Arguments mkResponse {T} _ _.
Arguments ok {T} _.
Arguments json {T} _.

Inductive Fetched (T : Type) : Type :=
  | Rejected (message : string)
  | Resolved (response : Response T).
Arguments Rejected {T} _.
Arguments Resolved {T} _.

Record StatsSummary : Type := mkStats {
  totalRequests : N;
  approvedRequests : N;
  flaggedRequests : N;
  killedRequests : N;
  blockedAgents : N;
}.

Record Agent : Type := mkAgent {
  agentId : string;
  isActive : bool;
}.

Record RequestSummary : Type := mkRequestSummary {
  r_agentId : string;
  r_action : string;
  r_decision : option string;
}.

Record ViolationSummary : Type := mkViolationSummary {
  s_type : string;
  s_severity : string;
}.

(** The backend as the assistant sees it: the outcome of each of the four
    summary queries it can make. *)
Record Backend : Type := mkBackend {
  stats_summary : Fetched StatsSummary;
  agents : Fetched (list Agent);
  recent_requests : Fetched (list RequestSummary);
  recent_violations : Fetched (list ViolationSummary);
}.

(** A thrown value: an [Error] with its message, or anything else. *)
Inductive Thrown : Type :=
  | ErrorObject (message : string)
  | OtherValue.

Inductive Completion (A : Type) : Type :=
  | Return (a : A)
  | Throw (e : Thrown).
Arguments Return {A} _.
Arguments Throw {A} _.

(** An event as the socket hook hands it over, before the cast of its
    [data]: the [data] may be absent ([undefined] or [null]). A [data] that is
    present is read at the type it is cast to. *)
Record IncomingEvent : Type := mkIncoming {
  in_type : string;
  in_data : option EventData;
}.

(** The [TypeError] of reading a property of [undefined]; the message is the
    engine's and is not looked at. *)
Definition typeError : Thrown :=
  ErrorObject "Cannot read properties of undefined (reading 'violation')".

(** The effect that runs when [lastEvent] changes, on the event as it
    arrives. [data.violation] is read without a guard on [data], so the read
    throws when the [data] of a [violation:detected] event is absent. *)
Definition lastEventEffect (fr : Fresh) (lastEvent : option IncomingEvent) (s : State)
    : Completion State :=
  match lastEvent with
  | None => Return s
  | Some ev =>
      let s1 :=
        if String.eqb (in_type ev) "request:processed"
           || String.eqb (in_type ev) "killswitch:triggered"
        then setRefreshTrigger (fun prev => (prev + 1)%N) s
        else s in
      if String.eqb (in_type ev) "violation:detected"
      then
        match in_data ev with
        | None => Throw typeError
        | Some data =>
            match normalize fr (violation data) with
            | Some normalized =>
                Return (setViolations (fun prev => take 8 (normalized :: prev)) s1)
            | None => Return s1
            end
        end
      else Return s1
  end.

(** What an exchange does that can be seen from outside, in order. *)
Inductive Obs : Type :=
  | Fetch (url : string)
  | Append (m : ChatMessage).

Record World : Type := mkWorld {
  st : State;
  log : list Obs;
}.

(** Handlers run in a state-and-exception monad over the component state and
    the log of what they did. A thrown value leaves the state as it is. *)
Definition M (A : Type) : Type := World -> World * Completion A.

Definition ret {A : Type} (a : A) : M A := fun w => (w, Return a).

Definition throw {A : Type} (e : Thrown) : M A := fun w => (w, Throw e).

Definition bind {A B : Type} (m : M A) (k : A -> M B) : M B :=
  fun w =>
    match m w with
    | (w', Return a) => k a w'
    | (w', Throw e) => (w', Throw e)
    end.

Definition try_catch {A : Type} (m : M A) (handler : Thrown -> M A) : M A :=
  fun w =>
    match m w with
    | (w', Return a) => (w', Return a)
    | (w', Throw e) => handler e w'
    end.

Definition finally {A : Type} (m : M A) (cleanup : M unit) : M A :=
  fun w =>
    match m w with
    | (w', c) =>
        match cleanup w' with
        | (w'', Return _) => (w'', c)
        | (w'', Throw e) => (w'', Throw e)
        end
    end.

Definition update (f : State -> State) : M unit :=
  fun w => (mkWorld (f (st w)) (log w), Return tt).

Definition emit (o : Obs) : M unit :=
  fun w => (mkWorld (st w) (log w ++ [o]), Return tt).

#[global] Instance M_ret : MRet M := @ret.
#[global] Instance M_bind : MBind M := fun A B k m => bind m k.

(** [await fetch(url)]. *)
Definition fetch {T : Type} (url : string) (outcome : Fetched T) : M (Response T) :=
  emit (Fetch url) ;;
  match outcome with
  | Rejected message => throw (ErrorObject message)
  | Resolved response => ret response
  end.

(** [setMessages((prev) => [...prev, m])]. *)
Definition appendMessage (m : ChatMessage) : M unit :=
  update (setMessages (fun prev => prev ++ [m])) ;;
  emit (Append m).

(** [s] between double quotes. *)
Definition quoted (s : string) : string :=
  String (ascii_of_nat 34) (s +:+ String (ascii_of_nat 34) EmptyString).

Definition helpText : string :=
  "Try asking: " +:+ quoted "stats" +:+ ", " +:+ quoted "recent requests" +:+ ", "
  +:+ quoted "violations" +:+ ", or " +:+ quoted "blocked agents" +:+ ".".

(** The four summary branches of [generateAssistantReply]. *)
Definition replyStats (be : Backend) : M string :=
  response ← fetch "/api/audit/stats/summary" (stats_summary be);
  if negb (ok response) then throw (ErrorObject "Unable to fetch stats")
  else
    let stats := json response in
    ret ("Stats snapshot: total=" +:+ pretty (totalRequests stats)
         +:+ ", approved=" +:+ pretty (approvedRequests stats)
         +:+ ", flagged=" +:+ pretty (flaggedRequests stats)
         +:+ ", killed=" +:+ pretty (killedRequests stats)
         +:+ ", blockedAgents=" +:+ pretty (blockedAgents stats) +:+ ".").

Definition replyBlocked (be : Backend) : M string :=
  response ← fetch "/api/agents" (agents be);
  if negb (ok response) then throw (ErrorObject "Unable to fetch agents")
  else
    let blocked := filter (fun agent => isActive agent = false) (json response) in
    if (length blocked =? 0)%nat then ret "No blocked agents right now."
    else
      ret ("Blocked agents (" +:+ pretty (length blocked) +:+ "): "
           +:+ Js.join ", " (map agentId blocked) +:+ ".").

Definition replyRequests (be : Backend) : M string :=
  response ← fetch "/api/requests?limit=5" (recent_requests be);
  if negb (ok response) then throw (ErrorObject "Unable to fetch requests")
  else
    let requests := json response in
    if (length requests =? 0)%nat then ret "No requests found yet."
    else
      let summary :=
        Js.join " | "
          (map (fun request =>
                  r_agentId request +:+ ":" +:+ r_action request +:+ ":"
                  +:+ default "PENDING" (r_decision request))
               requests) in
      ret ("Recent requests: " +:+ summary +:+ ".").

Definition replyViolations (be : Backend) : M string :=
  response ← fetch "/api/audit/violations/all?limit=5" (recent_violations be);
  if negb (ok response) then throw (ErrorObject "Unable to fetch violations")
  else
    let found := json response in
    if (length found =? 0)%nat then ret "No violations found."
    else
      let summary :=
        Js.join ", "
          (map (fun violation => s_type violation +:+ " (" +:+ s_severity violation +:+ ")")
               found) in
      ret ("Recent violations: " +:+ summary +:+ ".").

Definition generateAssistantReply (be : Backend) (input : string) : M string :=
  let query := Js.toLowerCase input in
  if Js.includes query "stat" then replyStats be
  else if Js.includes query "blocked" || Js.includes query "kill" then replyBlocked be
  else if Js.includes query "request" then replyRequests be
  else if Js.includes query "violation" then replyViolations be
  else ret helpText.


Definition errorText (error : Thrown) : string :=
  "Chatbot error: " +:+
  match error with
  | ErrorObject message => message
  | OtherValue => "unknown error"
  end.

(** [sendMessage]. [fr_user] and [fr_bot] are what the platform hands out for
    the user's message and for the assistant's. *)
Definition sendMessage (be : Backend) (fr_user fr_bot : Fresh) : M unit :=
  fun w =>
    let input := Js.trim (chatInput (st w)) in
    if String.eqb input EmptyString || chatLoading (st w) then ret tt w
    else
      let userMsg := mkMessage (randomUUID fr_user) user input (now fr_user) in
      (appendMessage userMsg ;;
       update (setChatInput EmptyString) ;;
       update (setChatLoading true) ;;
       finally
         (try_catch
            (responseText ← generateAssistantReply be input;
             appendMessage (mkMessage (randomUUID fr_bot) assistant responseText (now fr_bot)))
            (fun error =>
               appendMessage (mkMessage (randomUUID fr_bot) assistant (errorText error) (now fr_bot))))
         (update (setChatLoading false))) w.

(** The world after one more fetch. *)
Definition fetched (url : string) (w : World) : World :=
  mkWorld (st w) (log w ++ [Fetch url]).

(** The text of the blocked-agents report. *)
Definition blockedReport (all : list Agent) : string :=
  let blocked := filter (fun agent => isActive agent = false) all in
  match blocked with
  | [] => "No blocked agents right now."
  | _ => "Blocked agents (" +:+ pretty (length blocked) +:+ "): "
         +:+ Js.join ", " (map agentId blocked) +:+ "."
  end.

(** The line of one request and of one violation in the summaries. *)
Definition requestLine (r : RequestSummary) : string :=
  r_agentId r +:+ ":" +:+ r_action r +:+ ":"
  +:+ match r_decision r with Some d => d | None => "PENDING" end.

Definition violationLine (v : ViolationSummary) : string :=
  s_type v +:+ " (" +:+ s_severity v +:+ ")".

(** The four summary queries of the assistant. *)
Definition summaryEndpoints : list string :=
  ["/api/audit/stats/summary"; "/api/agents"; "/api/requests?limit=5";
   "/api/audit/violations/all?limit=5"].

(** The text of the assistant's message for a completion of the router. *)
Definition botText (c : Completion string) : string :=
  match c with
  | Return responseText => responseText
  | Throw error => errorText error
  end.

(** One turn of the chat: the operator types a question into the input box
    and sends it; the backend and the platform answer as given. *)
Record Turn : Type := mkTurn {
  question : string;
  answering : Backend;
  userFresh : Fresh;
  botFresh : Fresh;
}.

Definition takeTurn (w : World) (t : Turn) : World :=
  fst (sendMessage (answering t) (userFresh t) (botFresh t)
         (mkWorld (setChatInput (question t) (st w)) (log w))).

Definition converse (w : World) (turns : list Turn) : World := foldl takeTurn w turns.

(** The identifiers the platform hands out to the events of a run, in order. *)
Definition freshIds (acts : list Action) : list string :=
  omap (fun a => match a with
                 | LastEvent fr (Some _) => Some (randomUUID fr)
                 | _ => None
                 end) acts.

(** Unfolds the monad down to functions on worlds. *)
Ltac run_monad :=
  unfold mbind, M_bind, mret, M_ret, bind, ret, throw, fetch, emit, update,
    try_catch, finally, appendMessage in *; simpl in *.

End DashboardApp.

(** ** Array.prototype.sort *)

(** The standard's [CompareArrayElements]: the comparator's result is
    converted to a number, and NaN counts as zero. *)
Definition SortCompare {A : Type} (comparefn : A -> A -> Js.number) (x y : A) : Z :=
  match comparefn x y with
  | Js.Num v => v
  | Js.NaN => 0
  end.

(** The sort itself. The standard asks for a stable sort and leaves the
    algorithm open; the model is the stable insertion sort, in which an
    element goes before the first element it does not compare greater than.
    With a consistent comparator every stable sort returns the same list
    (lemma [any_stable_sort_agrees]); with an inconsistent one the standard
    leaves the order to the engine, and the model is one such engine. *)
Fixpoint sort_insert {A : Type} (cmp : A -> A -> Z) (x : A) (l : list A) : list A :=
  match l with
  | [] => [x]
  | y :: l' => if (cmp x y <=? 0)%Z then x :: l else y :: sort_insert cmp x l'
  end.

Definition sort {A : Type} (comparefn : A -> A -> Js.number) (l : list A) : list A :=
  foldr (sort_insert (SortCompare comparefn)) [] l.

(** A consistent comparator, on the values that satisfy [D]. *)
Record Consistent {A : Type} (D : A -> Prop) (cmp : A -> A -> Z) : Prop := mkConsistent {
  cmp_antisym : forall a b, D a -> D b -> (cmp a b < 0 <-> 0 < cmp b a)%Z;
  cmp_trans : forall a b c, D a -> D b -> D c ->
    (cmp a b <= 0 -> cmp b c <= 0 -> cmp a c <= 0)%Z;
}.

(** ** RequestList: search, star filter, sort and pinning *)

Module SortKey.
Inductive t : Type := newest | oldest | agent | status.
End SortKey.

Module RequestList.

Record Request : Type := mkRequest {
  id : string;
  agentId : string;
  action : string;
  target : string;
  status : string;
  decision : option string;
  createdAt : string;
  processedAt : option string;
}.

(** [request.decision || EmptyString]. *)
Definition decisionOrEmpty (request : Request) : string :=
  match decision request with
  | Some d => if Js.truthy (Some d) then d else EmptyString
  | None => EmptyString
  end.

(** The six strings the search looks into. *)
Definition searchedFields (request : Request) : list string :=
  [id request; agentId request; action request; target request; status request;
   decisionOrEmpty request].

Definition matchesSearch (query : string) (request : Request) : bool :=
  (String.length query =? 0)%nat
  || Js.includes (Js.toLowerCase (id request)) query
  || Js.includes (Js.toLowerCase (agentId request)) query
  || Js.includes (Js.toLowerCase (action request)) query
  || Js.includes (Js.toLowerCase (target request)) query
  || Js.includes (Js.toLowerCase (status request)) query
  || Js.includes (Js.toLowerCase (decisionOrEmpty request)) query.

(** [starredIds[key]], as a boolean. [starredIds] is a plain object whose own
    keys, the set, all hold [true]; a key that is not its own is looked up in
    [Object.prototype]. *)
Definition lookupStar (starredIds : gset string) (key : string) : bool :=
  bool_decide (key ∈ starredIds) || Js.inherited key.

(** [starredIds[request.id]], as a boolean. *)
Definition isStarred (starredIds : gset string) (request : Request) : bool :=
  lookupStar starredIds (id request).

Definition matchesStarred (showStarredOnly : bool) (starredIds : gset string)
    (request : Request) : bool :=
  negb showStarredOnly || isStarred starredIds request.

(** The [filtered] array of [visibleRequests]. *)
Definition filtered (requests : list Request) (search : string) (showStarredOnly : bool)
    (starredIds : gset string) : list Request :=
  let query := Js.toLowerCase (Js.trim search) in
  List.filter
    (fun request => matchesSearch query request && matchesStarred showStarredOnly starredIds request)
    requests.

(** [toggleStar]: when [prev[requestId]] is truthy the key is deleted from a
    copy of the own keys, otherwise it is added to one. *)
Definition toggleStar (requestId : string) (prev : gset string) : gset string :=
  if lookupStar prev requestId then prev ∖ {[requestId]} else prev ∪ {[requestId]}.

Section Platform.

(** [new Date(s).getTime()] and [a.localeCompare(b)] belong to the platform. *)
Variable getTime : string -> Js.number.
Variable localeCompare : string -> string -> Z.

(** The comparator below the two star tests. *)
Definition keyCompare (sortBy : SortKey.t) (a b : Request) : Js.number :=
  match sortBy with
  | SortKey.newest => Js.sub (getTime (createdAt b)) (getTime (createdAt a))
  | SortKey.oldest => Js.sub (getTime (createdAt a)) (getTime (createdAt b))
  | SortKey.agent => Js.Num (localeCompare (agentId a) (agentId b))
  | SortKey.status => Js.Num (localeCompare (status a) (status b))
  end.

Definition compareRequests (starredIds : gset string) (sortBy : SortKey.t)
    (a b : Request) : Js.number :=
  if isStarred starredIds a && negb (isStarred starredIds b) then Js.Num (-1)
  else if negb (isStarred starredIds a) && isStarred starredIds b then Js.Num 1
  else keyCompare sortBy a b.

Definition visibleRequests (requests : list Request) (search : string)
    (showStarredOnly : bool) (sortBy : SortKey.t) (starredIds : gset string) : list Request :=
  sort (compareRequests starredIds sortBy) (filtered requests search showStarredOnly starredIds).

(** [a] may stand before [b] under the sort key. *)
Definition inKeyOrder (sortBy : SortKey.t) (a b : Request) : Prop :=
  match sortBy with
  | SortKey.newest =>
      exists ta tb, getTime (createdAt a) = Js.Num ta /\ getTime (createdAt b) = Js.Num tb
                    /\ (tb <= ta)%Z
  | SortKey.oldest =>
      exists ta tb, getTime (createdAt a) = Js.Num ta /\ getTime (createdAt b) = Js.Num tb
                    /\ (ta <= tb)%Z
  | SortKey.agent => (localeCompare (agentId a) (agentId b) <= 0)%Z
  | SortKey.status => (localeCompare (status a) (status b) <= 0)%Z
  end.

(** [b] has the same star status and the same key as [x]. *)
Definition tiesWith (starredIds : gset string) (sortBy : SortKey.t) (x b : Request) : bool :=
  Bool.eqb (isStarred starredIds x) (isStarred starredIds b)
  && (SortCompare (keyCompare sortBy) x b =? 0)%Z.

(** The creation time of a request is a date the platform can read. *)
Definition validDate (r : Request) : Prop :=
  exists t, getTime (createdAt r) = Js.Num t.

(** What the sort key needs of a request to order it. *)
Definition sortable (sortBy : SortKey.t) (r : Request) : Prop :=
  match sortBy with
  | SortKey.newest | SortKey.oldest => validDate r
  | SortKey.agent | SortKey.status => True
  end.

End Platform.

(** The match condition in the words of the specification: the lower-cased
    query is a substring of one of the six lower-cased fields. *)
Definition SpecMatches (search : string) (request : Request) : Prop :=
  exists field, field ∈ searchedFields request
                /\ Substring (Js.toLowerCase search) (Js.toLowerCase field).

(** The match condition the source computes: the query is trimmed as well. *)
Definition Matches (search : string) (request : Request) : Prop :=
  exists field, field ∈ searchedFields request
                /\ Substring (Js.toLowerCase (Js.trim search)) (Js.toLowerCase field).

(** A comparison of strings by code units, one consistent [localeCompare]. *)
Definition codeUnitCompare (a b : string) : Z :=
  match String.compare a b with
  | Eq => 0
  | Lt => -1
  | Gt => 1
  end.

(** A fragment of the platform's reading of dates, enough for examples. *)
Definition sampleGetTime (s : string) : Js.number :=
  if String.eqb s "2024-01-01T00:00:00.000Z" then Js.Num 1704067200000
  else if String.eqb s "2024-01-02T00:00:00.000Z" then Js.Num 1704153600000
  else if String.eqb s "2024-01-03T00:00:00.000Z" then Js.Num 1704240000000
  else Js.NaN.

(** *** Fetching and what is drawn *)

Record State : Type := mkState {
  requests : list Request;
  loading : bool;
  error : option string;
  search : string;
  sortBy : SortKey.t;
  starredIds : gset string;
  showStarredOnly : bool;
}.

Definition initialState : State :=
  mkState [] true None EmptyString SortKey.newest ∅ false.

(** [err instanceof Error ? err.message : 'Unknown error']. *)
Definition errorMessage (err : DashboardApp.Thrown) : string :=
  match err with
  | DashboardApp.ErrorObject message => message
  | DashboardApp.OtherValue => "Unknown error"
  end.

(** The body of the [try] of [fetchRequests]: the requests of the response,
    or what is thrown. *)
Definition tryFetchRequests (outcome : DashboardApp.Fetched (list Request))
    : DashboardApp.Completion (list Request) :=
  match outcome with
  | DashboardApp.Rejected message => DashboardApp.Throw (DashboardApp.ErrorObject message)
  | DashboardApp.Resolved response =>
      if negb (DashboardApp.ok response)
      then DashboardApp.Throw (DashboardApp.ErrorObject "Failed to fetch requests")
      else DashboardApp.Return (DashboardApp.json response)
  end.

Definition fetchRequests (outcome : DashboardApp.Fetched (list Request)) (s : State) : State :=
  match tryFetchRequests outcome with
  | DashboardApp.Return fetched_requests =>
      mkState fetched_requests false None (search s) (sortBy s) (starredIds s)
        (showStarredOnly s)
  | DashboardApp.Throw err =>
      mkState (requests s) false (Some (errorMessage err)) (search s) (sortBy s)
        (starredIds s) (showStarredOnly s)
  end.

(** The handlers of the search box, the sort menu, the starred button and
    the star of a row. *)
Definition setSearch (v : string) (s : State) : State :=
  mkState (requests s) (loading s) (error s) v (sortBy s) (starredIds s) (showStarredOnly s).

Definition setSortBy (v : SortKey.t) (s : State) : State :=
  mkState (requests s) (loading s) (error s) (search s) v (starredIds s) (showStarredOnly s).

Definition toggleShowStarredOnly (s : State) : State :=
  mkState (requests s) (loading s) (error s) (search s) (sortBy s) (starredIds s)
    (negb (showStarredOnly s)).

Definition clickStar (requestId : string) (s : State) : State :=
  mkState (requests s) (loading s) (error s) (search s) (sortBy s)
    (toggleStar requestId (starredIds s)) (showStarredOnly s).

(** What the component draws. *)
Inductive Screen : Type :=
  | Spinner
  | ErrorPanel (message : string)
  | NoRequestsYet
  | NoMatch
  | Rows (rows : list Request).

Definition render (getTime : string -> Js.number) (localeCompare : string -> string -> Z)
    (s : State) : Screen :=
  if loading s then Spinner
  else if Js.truthy (error s) then ErrorPanel (default EmptyString (error s))
  else if (length (requests s) =? 0)%nat then NoRequestsYet
  else
    let visible :=
      visibleRequests getTime localeCompare (requests s) (search s) (showStarredOnly s)
        (sortBy s) (starredIds s) in
    if (length visible =? 0)%nat then NoMatch else Rows visible.

End RequestList.

(** ** InsightsDashboard: severity tally and decision distribution *)

Module InsightsDashboard.

(** A fetched violation. The severity is the string the backend sent. *)
Record Violation : Type := mkViolation {
  id : string;
  severity : string;
}.

Definition severityOrder : list string := ["LOW"; "MEDIUM"; "HIGH"; "CRITICAL"].

(** [counts[violation.severity] += 1] on the [counts] object. Reading a key
    the object does not have gives [undefined], and the sum is then NaN,
    which is stored under that key. *)
Definition tally (counts : gmap string Js.number) (violation : Violation)
    : gmap string Js.number :=
  <[severity violation := Js.plus_one (counts !! severity violation)]> counts.

Definition severityCounts (violations : list Violation) : gmap string Js.number :=
  foldl tally
    (<["LOW" := Js.Num 0]> (<["MEDIUM" := Js.Num 0]> (<["HIGH" := Js.Num 0]>
       (<["CRITICAL" := Js.Num 0]> ∅))))
    violations.

(** The number of items of a sample with a given severity. *)
Definition occurrences (s : string) (violations : list Violation) : nat :=
  length (List.filter (fun v => String.eqb (severity v) s) violations).

(** The severity of an item is one of the four of [severityOrder]. *)
Definition knownSeverity (v : Violation) : bool :=
  existsb (String.eqb (severity v)) severityOrder.

(** [decision?: 'APPROVE' | 'FLAG' | 'KILL'], at its declared type. *)
Inductive Decision : Type := APPROVE | FLAG | KILL.

Record Request : Type := mkRequest {
  decision : option Decision;
}.

(** The [counts] object of the decision distribution. *)
Record Counts : Type := mkCounts {
  cAPPROVE : N;
  cFLAG : N;
  cKILL : N;
  cPENDING : N;
}.

Definition count (counts : Counts) (request : Request) : Counts :=
  match decision request with
  | None => mkCounts (cAPPROVE counts) (cFLAG counts) (cKILL counts) (cPENDING counts + 1)
  | Some APPROVE => mkCounts (cAPPROVE counts + 1) (cFLAG counts) (cKILL counts) (cPENDING counts)
  | Some FLAG => mkCounts (cAPPROVE counts) (cFLAG counts + 1) (cKILL counts) (cPENDING counts)
  | Some KILL => mkCounts (cAPPROVE counts) (cFLAG counts) (cKILL counts + 1) (cPENDING counts)
  end.

(** [(count / total) * 100]. The quotient is taken in the rationals: the
    rounding of the floating-point operations is left out. *)
Definition percent (n total : N) : Q :=
  (inject_Z (Z.of_N n) / inject_Z (Z.of_N total)) * 100.

(** One sector of the conic gradient: a colour between two boundaries. *)
Record Stop : Type := mkStop {
  colour : string;
  from : Q;
  to : Q;
}.

Record Distribution : Type := mkDistribution {
  counts : Counts;
  chartStyle : list Stop;
}.

Definition decisionDistribution (requests : list Request) : Distribution :=
  let counts := foldl count (mkCounts 0 0 0 0) requests in
  let total := N.max 1 (N.of_nat (length requests)) in
  let approvePercent := percent (cAPPROVE counts) total in
  let flagPercent := percent (cFLAG counts) total in
  let killPercent := percent (cKILL counts) total in
  let pendingPercent := percent (cPENDING counts) total in
  mkDistribution counts
    [mkStop "#16a34a" 0 approvePercent;
     mkStop "#eab308" approvePercent (approvePercent + flagPercent);
     mkStop "#dc2626" (approvePercent + flagPercent) (approvePercent + flagPercent + killPercent);
     mkStop "#475569" (approvePercent + flagPercent + killPercent)
       (approvePercent + flagPercent + killPercent + pendingPercent)].

(** The upper boundaries of the sectors, in order. *)
Definition boundaries (d : Distribution) : list Q := map to (chartStyle d).

(** The last boundary, zero when there is no sector. *)
Definition lastBoundary (d : Distribution) : Q := List.last (boundaries d) 0%Q.

(** The number of requests of a sample that carry a given decision. *)
Definition decided (d : option Decision) (requests : list Request) : N :=
  N.of_nat (length (List.filter
    (fun r => match decision r, d with
              | None, None => true
              | Some APPROVE, Some APPROVE => true
              | Some FLAG, Some FLAG => true
              | Some KILL, Some KILL => true
              | _, _ => false
              end) requests)).

(** *** Loading the samples and drawing the bars *)

Record StatsData : Type := mkStatsData {
  totalRequests : N;
  approvedRequests : N;
  flaggedRequests : N;
  killedRequests : N;
  totalViolations : N;
  criticalViolations : N;
  activeAgents : N;
  blockedAgents : N;
}.

Record State : Type := mkState {
  stats : option StatsData;
  violations : list Violation;
  requests : list Request;
  loading : bool;
}.

Definition initialState : State := mkState None [] [] true.

Definition setStats (v : option StatsData) (s : State) : State :=
  mkState v (violations s) (requests s) (loading s).

Definition setViolations (v : list Violation) (s : State) : State :=
  mkState (stats s) v (requests s) (loading s).

Definition setRequests (v : list Request) (s : State) : State :=
  mkState (stats s) (violations s) v (loading s).

Definition setLoading (v : bool) (s : State) : State :=
  mkState (stats s) (violations s) (requests s) v.

(** What [await response.json()] gives: the promise rejects when the body is
    not JSON; otherwise it yields the value read, which the source casts
    without a check. *)
Inductive Json (T : Type) : Type :=
  | Malformed
  | Value (v : T).
Arguments Malformed {T}.
Arguments Value {T} _.

(** The bodies of the two sample queries, when they are not [null]: the list
    may be absent. *)
Record ViolationsData : Type := mkViolationsData {
  body_violations : option (list Violation);
}.

Record RequestsData : Type := mkRequestsData {
  body_requests : option (list Request);
}.

(** The answer to a query: what [fetch] gives, with the body as [json()]
    reads it; [None] is the body [null]. *)
Definition Answer (T : Type) : Type := DashboardApp.Fetched (Json (option T)).

(** The [try] block of [load], with the state it leaves and whether it ran
    to its end. The three queries go out together; a rejected query, an
    answer that is not ok and a body that is not JSON throw before any cell
    is set. Then the cells are set one after the other: [setStats] is called
    before [violationsData.violations] is read, and [setViolations] before
    [requestsData.requests] is, and either read throws on [null]. *)
Definition tryLoad (statsRes : Answer StatsData) (violationsRes : Answer ViolationsData)
    (requestsRes : Answer RequestsData) (s : State) : State * bool :=
  match statsRes, violationsRes, requestsRes with
  | DashboardApp.Resolved a, DashboardApp.Resolved b, DashboardApp.Resolved c =>
      if negb (DashboardApp.ok a) || negb (DashboardApp.ok b) || negb (DashboardApp.ok c)
      then (s, false)
      else
        match DashboardApp.json a, DashboardApp.json b, DashboardApp.json c with
        | Value statsData, Value violationsData, Value requestsData =>
            let s1 := setStats statsData s in
            match violationsData with
            | None => (s1, false)
            | Some vd =>
                let s2 := setViolations (default [] (body_violations vd)) s1 in
                match requestsData with
                | None => (s2, false)
                | Some rd => (setRequests (default [] (body_requests rd)) s2, true)
                end
            end
        | _, _, _ => (s, false)
        end
  | _, _, _ => (s, false)
  end.

(** [load]: the [catch] only logs, and [finally] takes the loading flag
    down. *)
Definition load (statsRes : Answer StatsData) (violationsRes : Answer ViolationsData)
    (requestsRes : Answer RequestsData) (s : State) : State :=
  setLoading false (fst (tryLoad statsRes violationsRes requestsRes s)).

(** The three bodies, when the three queries have all answered ok with a
    body that is JSON. *)
Definition answered (statsRes : Answer StatsData) (violationsRes : Answer ViolationsData)
    (requestsRes : Answer RequestsData)
    : option (option StatsData * option ViolationsData * option RequestsData) :=
  match statsRes, violationsRes, requestsRes with
  | DashboardApp.Resolved (DashboardApp.mkResponse true (Value a)),
    DashboardApp.Resolved (DashboardApp.mkResponse true (Value b)),
    DashboardApp.Resolved (DashboardApp.mkResponse true (Value c)) => Some (a, b, c)
  | _, _, _ => None
  end.

(** [loading || !stats]: the grey placeholder stands for the charts. *)
Definition placeholder (s : State) : bool :=
  loading s || match stats s with Some _ => false | None => true end.

(** The width of a bar in percent, [(count / totalViolations) * 100] with
    [totalViolations = Math.max(1, stats.totalViolations)]: the rational
    number that the source's double approximates; no width when the count is
    not a number. *)
Definition barWidth (count : option Js.number) (st : StatsData) : option Q :=
  match count with
  | Some (Js.Num z) =>
      Some ((inject_Z z / inject_Z (Z.max 1 (Z.of_N (totalViolations st)))) * 100)%Q
  | _ => None
  end.

(** The bars of the severity chart, in the order of [severityOrder]. *)
Definition severityBars (sample : list Violation) (st : StatsData)
    : list (string * option Q) :=
  map (fun sev => (sev, barWidth (severityCounts sample !! sev) st)) severityOrder.

End InsightsDashboard.

(** ** ViolationsPanel: the severity filter *)

Module ViolationsPanel.

Record Violation : Type := mkViolation {
  id : string;
  requestId : string;
  vtype : string;
  description : string;
  severity : string;
  evidence : option string;
  suggestedFix : option string;
  detectedAt : string;
}.

Definition filters : list string := ["ALL"; "LOW"; "MEDIUM"; "HIGH"; "CRITICAL"].

Record State : Type := mkState {
  violations : list Violation;
  loading : bool;
  selectedSeverity : string;
}.

Definition initialState : State := mkState [] true "ALL".

(** The effect on [refreshTrigger]. A failure is logged and changes nothing
    but the loading flag. *)
Definition fetchViolations (outcome : DashboardApp.Fetched (option (list Violation)))
    (s : State) : State :=
  match outcome with
  | DashboardApp.Resolved response =>
      if negb (DashboardApp.ok response)
      then mkState (violations s) false (selectedSeverity s)
      else mkState (default [] (DashboardApp.json response)) false (selectedSeverity s)
  | DashboardApp.Rejected _ => mkState (violations s) false (selectedSeverity s)
  end.

Definition setSelectedSeverity (v : string) (s : State) : State :=
  mkState (violations s) (loading s) v.

Definition filtered (s : State) : list Violation :=
  if String.eqb (selectedSeverity s) "ALL" then violations s
  else List.filter (fun item => String.eqb (severity item) (selectedSeverity s)) (violations s).

Inductive Screen : Type :=
  | LoadingNotice
  | NoneFound
  | Cards (cards : list Violation).

Definition render (s : State) : Screen :=
  if loading s then LoadingNotice
  else if (length (filtered s) =? 0)%nat then NoneFound
  else Cards (filtered s).

(** The fetched violation as the severity tally of the insights sees it. *)
Definition asTallied (v : Violation) : InsightsDashboard.Violation :=
  InsightsDashboard.mkViolation (id v) (severity v).

End ViolationsPanel.

(** ** Sample inputs *)

Module Sample.

Definition fresh (n : nat) : DashboardApp.Fresh :=
  DashboardApp.mkFresh ("uuid-" +:+ pretty n) ("time-" +:+ pretty n).

(** Nine well-formed [violation:detected] events, one after the other. *)
Definition nineDetected : list DashboardApp.Action :=
  map (fun n => DashboardApp.LastEvent (fresh n) (Some (DashboardApp.detected "LOW")))
    (seq 1 9).

(** Events with severities LOW, LOW, CRITICAL, in this order. *)
Definition threeDetected : list DashboardApp.Action :=
  [DashboardApp.LastEvent (fresh 1) (Some (DashboardApp.detected "LOW"));
   DashboardApp.LastEvent (fresh 2) (Some (DashboardApp.detected "LOW"));
   DashboardApp.LastEvent (fresh 3) (Some (DashboardApp.detected "CRITICAL"))].

(** A [violation:detected] event without description. *)
Definition noDescription : DashboardApp.Event :=
  DashboardApp.mkEvent "violation:detected"
    (DashboardApp.mkData
       (Some (DashboardApp.mkPartial None (Some "policy") None (Some "HIGH") None None None))).

(** A [violation:detected] payload whose severity is the empty string. *)
Definition emptySeverity : DashboardApp.PartialViolation :=
  DashboardApp.mkPartial None (Some "policy") (Some "blocked call") (Some EmptyString)
    None None None.

(** A backend with one inactive agent; its violation query fails. *)
Definition backend : DashboardApp.Backend :=
  DashboardApp.mkBackend
    (DashboardApp.Resolved (DashboardApp.mkResponse true (DashboardApp.mkStats 10 5 3 2 1)))
    (DashboardApp.Resolved
       (DashboardApp.mkResponse true [DashboardApp.mkAgent "x" false]))
    (DashboardApp.Resolved
       (DashboardApp.mkResponse true
          [DashboardApp.mkRequestSummary "a1" "read" None;
           DashboardApp.mkRequestSummary "a2" "write" (Some "KILL")]))
    (DashboardApp.Rejected "Failed to fetch").

(** The chat with a question typed in. *)
Definition asking (question : string) : DashboardApp.World :=
  DashboardApp.mkWorld
    (DashboardApp.setChatInput question (DashboardApp.initialState (fresh 0))) [].

Definition r1 : RequestList.Request :=
  RequestList.mkRequest "r1" "a1" "read" "/etc/hosts" "pending" None
    "2024-01-01T00:00:00.000Z" None.

Definition r2 : RequestList.Request :=
  RequestList.mkRequest "r2" "a2" "write" "/tmp/out" "approved" (Some "APPROVE")
    "2024-01-02T00:00:00.000Z" None.

Definition r3 : RequestList.Request :=
  RequestList.mkRequest "r3" "a0" "write" "/tmp/log" "approved" (Some "APPROVE")
    "2024-01-03T00:00:00.000Z" None.

Definition requests : list RequestList.Request := [r1; r2; r3].

(** A request whose id names a property that every object inherits. *)
Definition rc : RequestList.Request :=
  RequestList.mkRequest "constructor" "a3" "read" "/etc/passwd" "pending" None
    "2024-01-02T00:00:00.000Z" None.

End Sample.

(** ** App: the typed headline of the landing page *)

Module App.

Definition typedTexts : list string :=
  ["Monitor every request through a multi-agent security pipeline.";
   "Classify risk, detect violations, and trigger kill-switch controls instantly.";
   "Audit every decision with traceable reasoning and live event streams."].

Record State : Type := mkState {
  started : bool;
  textIndex : nat;
  display : string;
  isDeleting : bool;
}.

Definition initialState : State := mkState false 0 EmptyString false.

Definition pauseMs : nat := 1200.
Definition typingSpeed : nat := 42.
Definition deletingSpeed : nat := 28.

(** [typedTexts[textIndex % typedTexts.length]]. *)
Definition fullText (s : State) : string :=
  nth (textIndex s mod length typedTexts) typedTexts EmptyString.

(** One run of the effect: nothing once the dashboard is entered, otherwise
    a state update and the delay in milliseconds after which it happens
    (zero for an update made at once). *)
Definition effect (s : State) : option (nat * State) :=
  if started s then None
  else if negb (isDeleting s) && String.eqb (display s) (fullText s)
  then Some (pauseMs, mkState (started s) (textIndex s) (display s) true)
  else if isDeleting s && String.eqb (display s) EmptyString
  then Some (0, mkState (started s) ((textIndex s + 1) mod length typedTexts) (display s) false)
  else
    let nextValue :=
      if isDeleting s
      then Js.sliceTo (fullText s) (Nat.max 0 (String.length (display s) - 1))
      else Js.sliceTo (fullText s)
             (Nat.min (String.length (fullText s)) (String.length (display s) + 1)) in
    Some (if isDeleting s then deletingSpeed else typingSpeed,
          mkState (started s) (textIndex s) nextValue (isDeleting s)).

(** The state once the update the effect arranged has happened, with the
    time it took. *)
Definition tick (ts : nat * State) : nat * State :=
  match effect (snd ts) with
  | Some (delay, s') => (fst ts + delay, s')
  | None => ts
  end.

(** [n] updates in a row, from time zero. *)
Definition after (n : nat) (s : State) : nat * State := Nat.iter n tick (0, s).

(** The button [Enter Dashboard]. *)
Definition enterDashboard (s : State) : State :=
  mkState true (textIndex s) (display s) (isDeleting s).

End App.

(** * Properties *)

(** ** The live violation buffer and the refresh counter *)

Section EventStream.

Import DashboardApp.

Lemma run_app (s : State) (acts1 acts2 : list Action) :
  run s (acts1 ++ acts2) = run (run s acts1) acts2.
Proof. unfold run. apply foldl_app. Qed.

Lemma violations_setRefreshTrigger (f : N -> N) (s : State) :
  violations (setRefreshTrigger f s) = violations s.
Proof. reflexivity. Qed.

(** One action either prepends what it ingests and cuts at eight, or leaves
    the buffer alone. *)
Lemma violations_step (s : State) (a : Action) :
  violations (step s a) =
  match ingested a with
  | Some v => take 8 (v :: violations s)
  | None => violations s
  end.
Proof.
  destruct a as [fr [ev|]|]; simpl; try reflexivity.
  destruct (String.eqb (type ev) "violation:detected"); simpl.
  - destruct (normalize fr (violation (data ev))); simpl;
      destruct (_ || _); reflexivity.
  - destruct (_ || _); reflexivity.
Qed.

Lemma take_app_take {A : Type} (n : nat) (l k : list A) :
  take n (l ++ take n k) = take n (l ++ k).
Proof.
  rewrite !take_app. f_equal. rewrite take_take. f_equal. lia.
Qed.

Lemma violations_run (acts : list Action) :
  forall s : State,
    (length (violations s) <= 8)%nat ->
    violations (run s acts) = take 8 (reverse (omap ingested acts) ++ violations s).
Proof.
  induction acts as [|a acts IH]; intros s Hs.
  - simpl. rewrite take_ge; [reflexivity | exact Hs].
  - change (run s (a :: acts)) with (run (step s a) acts).
    rewrite IH.
    + rewrite violations_step. simpl omap.
      destruct (ingested a) as [v|]; [|reflexivity].
      rewrite reverse_cons, <- app_assoc.
      exact (take_app_take 8 (reverse (omap ingested acts)) (v :: violations s)).
    + rewrite violations_step. destruct (ingested a); [|exact Hs].
      rewrite length_take. lia.
Qed.

Lemma refreshTrigger_step (s : State) (a : Action) :
  refreshTrigger (step s a) =
  (refreshTrigger s + (if invalidates a then 1 else 0))%N.
Proof.
  destruct a as [fr [ev|]|]; simpl.
  - destruct (String.eqb (type ev) "request:processed" || String.eqb (type ev) "killswitch:triggered");
      destruct (String.eqb (type ev) "violation:detected");
      try destruct (normalize fr (violation (data ev))); simpl; lia.
  - lia.
  - reflexivity.
Qed.

Lemma refreshTrigger_run (acts : list Action) :
  forall s : State,
    refreshTrigger (run s acts) =
    (refreshTrigger s + N.of_nat (length (List.filter invalidates acts)))%N.
Proof.
  induction acts as [|a acts IH]; intros s.
  - simpl. lia.
  - change (run s (a :: acts)) with (run (step s a) acts).
    rewrite IH, refreshTrigger_step. simpl.
    destruct (invalidates a); simpl length; lia.
Qed.

Lemma invalidating_type (ev : Event) :
  String.eqb (type ev) "request:processed" || String.eqb (type ev) "killswitch:triggered" = true
  <-> type ev = "request:processed" \/ type ev = "killswitch:triggered".
Proof.
  rewrite orb_true_iff, !String.eqb_eq. reflexivity.
Qed.

Lemma normalize_missing (fr : Fresh) (incoming : option PartialViolation) :
  missingRequired incoming -> normalize fr incoming = None.
Proof.
  destruct incoming as [inc|]; simpl; [|reflexivity].
  intros [H | [H | H]]; rewrite H; simpl;
    rewrite ?andb_false_r; try reflexivity;
    destruct (_ && _); try reflexivity;
    destruct (p_type inc); try reflexivity; destruct (p_description inc); reflexivity.
Qed.

Lemma normalize_empty (fr : Fresh) (inc : PartialViolation) :
  emptyRequired inc -> normalize fr (Some inc) = None.
Proof.
  unfold normalize.
  intros [H | [H | H]]; rewrite H; simpl; rewrite ?andb_false_r; reflexivity.
Qed.

(** C1. Whatever actions reach the component, the live buffer holds at most
    eight violations; it holds the ingested violations most recent first,
    namely the last eight of them in reverse order of arrival; each ingest
    prepends its violation and cuts the buffer at eight, which drops the
    oldest entry; and after nine ingests the buffer is the last eight. *)
Theorem violation_buffer_bounded_most_recent_first :
  forall (fr0 : Fresh) (acts : list Action),
    let buffer := violations (run (initialState fr0) acts) in
    let accepted := omap ingested acts in
    (length buffer <= 8)%nat
    /\ buffer = take 8 (reverse accepted)
    /\ buffer = reverse (drop (length accepted - 8) accepted)
    /\ (forall (s : State) (a : Action) (v : Violation),
          ingested a = Some v -> violations (step s a) = take 8 (v :: violations s))
    /\ (length accepted = 9%nat ->
        length buffer = 8%nat /\ buffer = reverse (drop 1 accepted)).
Proof.
  intros fr0 acts buffer accepted.
  assert (Hb : buffer = take 8 (reverse accepted)).
  { unfold buffer. rewrite violations_run by (simpl; lia).
    simpl. rewrite app_nil_r. reflexivity. }
  assert (Hd : buffer = reverse (drop (length accepted - 8) accepted)).
  { rewrite Hb. apply take_reverse. }
  split; [rewrite Hb, length_take; lia|].
  split; [exact Hb|]. split; [exact Hd|]. split.
  - intros s a v Hv. rewrite violations_step, Hv. reflexivity.
  - intros H9. rewrite Hd, H9. simpl. split; [|reflexivity].
    rewrite length_reverse, length_drop. lia.
Qed.

(** An event whose [data] is present: when it is of another type, or is a
    [violation:detected] event whose payload is absent or lacks the type, the
    description or the severity, it leaves the buffer as it was; the
    malformed violation event leaves the whole state as it was. *)
Lemma foreign_or_malformed_event_leaves_buffer :
  forall (fr : Fresh) (ev : Event) (s : State),
    type ev <> "violation:detected" \/ missingRequired (violation (data ev)) ->
    violations (onLastEvent fr (Some ev) s) = violations s
    /\ (type ev = "violation:detected" -> onLastEvent fr (Some ev) s = s).
Proof.
  intros fr ev s H.
  assert (Hi : ingested (LastEvent fr (Some ev)) = None).
  { simpl. destruct H as [H | H].
    - apply String.eqb_neq in H. rewrite H. reflexivity.
    - rewrite (normalize_missing fr _ H). destruct (String.eqb _ _); reflexivity. }
  split.
  - change (onLastEvent fr (Some ev) s) with (step s (LastEvent fr (Some ev))).
    rewrite violations_step, Hi. reflexivity.
  - intros Ht. simpl in Hi. unfold onLastEvent. rewrite Ht in *. simpl in *.
    rewrite Hi. reflexivity.
Qed.

(** On an event whose [data] is present, the effect returns, and returns
    what [onLastEvent] computes at the type of the cast. *)
Lemma lastEventEffect_with_data (fr : Fresh) (t : string) (d : EventData) (s : State) :
  lastEventEffect fr (Some (mkIncoming t (Some d))) s
  = Return (onLastEvent fr (Some (mkEvent t d)) s).
Proof.
  unfold lastEventEffect, onLastEvent. simpl.
  destruct (String.eqb t "violation:detected"); [|reflexivity].
  destruct (normalize fr (violation d)); reflexivity.
Qed.

(** C6 fails on a [violation:detected] event that carries no [data]. Its
    payload lacks the type, the description and the severity, so the
    specification wants it dropped without an error; the effect reads
    [data.violation] with no guard on [data] and throws a [TypeError], so it
    returns no state at all. *)
Theorem dataless_violation_event_throws :
  forall (fr : Fresh) (s : State),
    missingRequired (in_data (mkIncoming "violation:detected" None) ≫= violation)
    /\ lastEventEffect fr (Some (mkIncoming "violation:detected" None)) s = Throw typeError
    /\ (forall s' : State,
          lastEventEffect fr (Some (mkIncoming "violation:detected" None)) s <> Return s').
Proof.
  intros fr s. split; [exact I|]. split; [reflexivity|]. intros s'. discriminate.
Qed.

(** X21. The effect on the event as it arrives. Without an event it returns
    the state as it is. An event of another type than [violation:detected]
    is handled without an error and leaves the buffer as it was, with or
    without [data]. An event with [data] is handled without an error, as
    [onLastEvent] handles it; when it is a [violation:detected] event whose
    payload is absent or lacks the type, the description or the severity,
    the whole state is returned as it was. Only a [violation:detected] event
    without [data] makes the effect throw. *)
Theorem event_effect_returns_unless_data_is_absent :
  forall (fr : Fresh) (ev : IncomingEvent) (s : State),
    lastEventEffect fr None s = Return s
    /\ (in_type ev <> "violation:detected" ->
        exists s' : State,
          lastEventEffect fr (Some ev) s = Return s' /\ violations s' = violations s)
    /\ (forall d : EventData,
          in_data ev = Some d ->
          lastEventEffect fr (Some ev) s
          = Return (onLastEvent fr (Some (mkEvent (in_type ev) d)) s))
    /\ (forall d : EventData,
          in_type ev = "violation:detected" -> in_data ev = Some d ->
          missingRequired (violation d) ->
          lastEventEffect fr (Some ev) s = Return s)
    /\ (forall c : Completion State,
          lastEventEffect fr (Some ev) s = c ->
          (exists e : Thrown, c = Throw e)
          <-> in_type ev = "violation:detected" /\ in_data ev = None).
Proof.
  intros fr [t d] s. cbn [in_type in_data].
  split; [reflexivity|]. split; [|split; [|split]].
  - intros Ht. apply String.eqb_neq in Ht. unfold lastEventEffect. simpl. rewrite Ht.
    eexists. split; [reflexivity|]. destruct (_ || _); reflexivity.
  - intros d' ->. apply lastEventEffect_with_data.
  - intros d' -> -> Hmiss. rewrite lastEventEffect_with_data. f_equal.
    apply (foreign_or_malformed_event_leaves_buffer fr (mkEvent _ d') s);
      [right; exact Hmiss | reflexivity].
  - intros c <-. destruct d as [d'|].
    + rewrite lastEventEffect_with_data.
      split; [intros [e He]; discriminate | intros [_ H]; discriminate].
    + unfold lastEventEffect. simpl.
      destruct (String.eqb_spec t "violation:detected") as [->|Hne].
      * split; [intros _; split; reflexivity | intros _; eexists; reflexivity].
      * split; [intros [e He]; discriminate | intros [H _]; contradiction].
Qed.

(** C10. A [violation:detected] payload in which the type, the description
    or the severity is present but is the empty string is dropped as well:
    the guard tests the three fields for truthiness. *)
Theorem empty_required_field_is_dropped :
  forall (fr : Fresh) (ev : Event) (inc : PartialViolation) (s : State),
    type ev = "violation:detected" ->
    violation (data ev) = Some inc ->
    emptyRequired inc ->
    normalize fr (Some inc) = None /\ onLastEvent fr (Some ev) s = s.
Proof.
  intros fr ev inc s Ht Hinc He.
  split; [exact (normalize_empty fr inc He)|].
  unfold onLastEvent. rewrite Ht, Hinc, (normalize_empty fr inc He). reflexivity.
Qed.

(** C9. An incoming event adds exactly one to the refresh counter when its
    type is [request:processed] or [killswitch:triggered], and only then;
    every other event leaves the counter as it was. Over any sequence of
    actions the counter is a natural number that has grown by the number of
    invalidating actions, so it never decreases and is never set back. *)
Theorem refresh_counter_counts_invalidating_events :
  (forall (fr : Fresh) (ev : Event) (s : State),
      refreshTrigger (onLastEvent fr (Some ev) s) = (refreshTrigger s + 1)%N
      <-> type ev = "request:processed" \/ type ev = "killswitch:triggered")
  /\ (forall (fr : Fresh) (ev : Event) (s : State),
        ~ (type ev = "request:processed" \/ type ev = "killswitch:triggered") ->
        refreshTrigger (onLastEvent fr (Some ev) s) = refreshTrigger s)
  /\ (forall (fr : Fresh) (s : State), onLastEvent fr None s = s)
  /\ (forall (s : State) (acts : list Action),
        refreshTrigger (run s acts)
        = (refreshTrigger s + N.of_nat (length (List.filter invalidates acts)))%N)
  /\ (forall (s : State) (acts1 acts2 : list Action),
        (refreshTrigger (run s acts1) <= refreshTrigger (run s (acts1 ++ acts2)))%N)
  /\ (forall (fr0 : Fresh) (acts : list Action),
        (0 <= refreshTrigger (run (initialState fr0) acts))%N).
Proof.
  assert (Hstep : forall fr ev s,
    refreshTrigger (onLastEvent fr (Some ev) s) =
    (refreshTrigger s + (if String.eqb (type ev) "request:processed"
                            || String.eqb (type ev) "killswitch:triggered" then 1 else 0))%N).
  { intros fr ev s. exact (refreshTrigger_step s (LastEvent fr (Some ev))). }
  split; [|split; [|split; [|split; [|split]]]].
  - intros fr ev s. rewrite Hstep, <- invalidating_type.
    destruct (_ || _); split; intros H; try reflexivity; try discriminate; lia.
  - intros fr ev s H. rewrite Hstep.
    destruct (_ || _) eqn:E; [|lia].
    apply invalidating_type in E. contradiction.
  - reflexivity.
  - intros s acts. apply refreshTrigger_run.
  - intros s acts1 acts2. rewrite run_app, (refreshTrigger_run acts2). lia.
  - intros fr0 acts. lia.
Qed.

End EventStream.

(** ** Strings *)

Section Strings.

Lemma append_nil_l (s : string) : EmptyString +:+ s = s.
Proof. reflexivity. Qed.

Lemma append_cons (c : ascii) (p s : string) : String c p +:+ s = String c (p +:+ s).
Proof. reflexivity. Qed.

Lemma append_nil_r (s : string) : s +:+ EmptyString = s.
Proof. induction s as [|c s IH]; [reflexivity|]. rewrite append_cons, IH. reflexivity. Qed.

Lemma startsWith_spec (s p : string) :
  Js.startsWith s p = true <-> exists r, s = p +:+ r.
Proof.
  revert s. induction p as [|a p IH]; intros s; simpl.
  - split; [intros _; exists s; reflexivity | intros _; destruct s; reflexivity].
  - destruct s as [|b s].
    + split; [discriminate | intros [r Hr]; discriminate].
    + simpl. destruct (Ascii.eqb_spec a b) as [->|Hne].
      * rewrite IH. split; intros [r Hr]; exists r.
        -- rewrite append_cons, Hr. reflexivity.
        -- rewrite append_cons in Hr. congruence.
      * split; [discriminate|]. intros [r Hr]. rewrite append_cons in Hr. congruence.
Qed.

(** [Js.includes] decides the substring relation. *)
Lemma includes_spec (s sub : string) :
  Js.includes s sub = true <-> Substring sub s.
Proof.
  unfold Substring. split.
  - induction s as [|c s IH]; cbn [Js.includes]; rewrite ?orb_false_r.
    + intros H. apply startsWith_spec in H as [r Hr]. exists EmptyString, r. exact Hr.
    + intros H. apply orb_true_iff in H as [H | H].
      * apply startsWith_spec in H as [r Hr]. exists EmptyString, r. exact Hr.
      * destruct (IH H) as (p & r & Hpr). exists (String c p), r.
        rewrite append_cons, Hpr. reflexivity.
  - intros (p & r & Hpr). revert s Hpr. induction p as [|c p IH]; intros s Hpr.
    + rewrite append_nil_l in Hpr.
      assert (Hs : Js.startsWith s sub = true) by (apply startsWith_spec; eauto).
      destruct s; cbn [Js.includes]; rewrite Hs; reflexivity.
    + rewrite append_cons in Hpr. subst s. cbn [Js.includes].
      rewrite (IH _ eq_refl). apply orb_true_r.
Qed.


Lemma includes_empty (s : string) : Js.includes s EmptyString = true.
Proof. destruct s; reflexivity. Qed.

Lemma length_zero_empty (s : string) : (String.length s =? 0)%nat = true <-> s = EmptyString.
Proof. destruct s; simpl; split; congruence. Qed.

End Strings.

(** ** The chat assistant *)

Section Chat.

Import DashboardApp.

Lemma fetch_run {T : Type} (url : string) (outcome : Fetched T) (w : World) :
  fetch url outcome w =
  (fetched url w,
   match outcome with
   | Rejected message => Throw (ErrorObject message)
   | Resolved response => Return response
   end).
Proof. destruct outcome; reflexivity. Qed.

Lemma replyStats_run (be : Backend) (w : World) :
  replyStats be w =
  (fetched "/api/audit/stats/summary" w,
   match stats_summary be with
   | Rejected message => Throw (ErrorObject message)
   | Resolved response =>
       if ok response
       then Return ("Stats snapshot: total=" +:+ pretty (totalRequests (json response))
                    +:+ ", approved=" +:+ pretty (approvedRequests (json response))
                    +:+ ", flagged=" +:+ pretty (flaggedRequests (json response))
                    +:+ ", killed=" +:+ pretty (killedRequests (json response))
                    +:+ ", blockedAgents=" +:+ pretty (blockedAgents (json response)) +:+ ".")
       else Throw (ErrorObject "Unable to fetch stats")
   end).
Proof.
  unfold replyStats. run_monad.
  destruct (stats_summary be) as [m | [[] body]]; reflexivity.
Qed.

Lemma replyBlocked_run (be : Backend) (w : World) :
  replyBlocked be w =
  (fetched "/api/agents" w,
   match agents be with
   | Rejected message => Throw (ErrorObject message)
   | Resolved response =>
       if ok response then Return (blockedReport (json response))
       else Throw (ErrorObject "Unable to fetch agents")
   end).
Proof.
  unfold replyBlocked, blockedReport. run_monad.
  destruct (agents be) as [m | [[] body]]; simpl; try reflexivity.
  destruct (filter _ body); reflexivity.
Qed.

Lemma replyRequests_run (be : Backend) (w : World) :
  replyRequests be w =
  (fetched "/api/requests?limit=5" w,
   match recent_requests be with
   | Rejected message => Throw (ErrorObject message)
   | Resolved response =>
       if ok response
       then Return (match json response with
                    | [] => "No requests found yet."
                    | rs => "Recent requests: " +:+ Js.join " | " (map requestLine rs) +:+ "."
                    end)
       else Throw (ErrorObject "Unable to fetch requests")
   end).
Proof.
  unfold replyRequests. run_monad.
  destruct (recent_requests be) as [m | [[] body]]; simpl; try reflexivity.
  destruct body; reflexivity.
Qed.

Lemma replyViolations_run (be : Backend) (w : World) :
  replyViolations be w =
  (fetched "/api/audit/violations/all?limit=5" w,
   match recent_violations be with
   | Rejected message => Throw (ErrorObject message)
   | Resolved response =>
       if ok response
       then Return (match json response with
                    | [] => "No violations found."
                    | vs => "Recent violations: " +:+ Js.join ", " (map violationLine vs) +:+ "."
                    end)
       else Throw (ErrorObject "Unable to fetch violations")
   end).
Proof.
  unfold replyViolations. run_monad.
  destruct (recent_violations be) as [m | [[] body]]; simpl; try reflexivity.
  destruct body; reflexivity.
Qed.

(** The assistant leaves the component state alone and makes at most one
    fetch, whatever the outcome. *)
Lemma generateAssistantReply_frame (be : Backend) (input : string) (w : World) :
  exists (urls : list string) (c : Completion string),
    (length urls <= 1)%nat
    /\ generateAssistantReply be input w = (mkWorld (st w) (log w ++ map Fetch urls), c).
Proof.
  unfold generateAssistantReply.
  destruct (Js.includes _ "stat");
    [|destruct (_ || _); [|destruct (Js.includes _ "request");
        [|destruct (Js.includes _ "violation")]]].
  - rewrite replyStats_run. eexists [_], _. split; [simpl; lia | reflexivity].
  - rewrite replyBlocked_run. eexists [_], _. split; [simpl; lia | reflexivity].
  - rewrite replyRequests_run. eexists [_], _. split; [simpl; lia | reflexivity].
  - rewrite replyViolations_run. eexists [_], _. split; [simpl; lia | reflexivity].
  - exists [], (Return helpText). split; [simpl; lia|].
    unfold ret. simpl. rewrite app_nil_r. destruct w; reflexivity.
Qed.


(** C8. In an exchange, that is a send with a non-blank input while no
    exchange is pending, the user's message is appended first, then the
    router makes its fetch if it makes one, then one assistant message is
    appended: the reply when the router returned, the error text when it
    threw. Nothing is thrown out of the exchange, the input box is cleared
    and the loading flag is down again. *)
Theorem exchange_appends_user_then_one_assistant_message :
  forall (be : Backend) (fr_user fr_bot : Fresh) (w : World),
    let input := Js.trim (chatInput (st w)) in
    input <> EmptyString ->
    chatLoading (st w) = false ->
    let userMsg := mkMessage (randomUUID fr_user) user input (now fr_user) in
    let w1 :=
      mkWorld
        (setChatLoading true (setChatInput EmptyString
           (setMessages (fun prev => prev ++ [userMsg]) (st w))))
        (log w ++ [Append userMsg]) in
    exists (urls : list string) (botText : string),
      let botMsg := mkMessage (randomUUID fr_bot) assistant botText (now fr_bot) in
      sendMessage be fr_user fr_bot w =
      (mkWorld
         (mkState (refreshTrigger (st w)) (violations (st w)) EmptyString false
            (messages (st w) ++ [userMsg; botMsg]))
         (log w ++ [Append userMsg] ++ map Fetch urls ++ [Append botMsg]),
       Return tt)
      /\ (length urls <= 1)%nat
      /\ match snd (generateAssistantReply be input w1) with
         | Return responseText => botText = responseText
         | Throw error => botText = errorText error
         end.
Proof.
  intros be fr_user fr_bot w input Hin Hload userMsg w1.
  destruct (generateAssistantReply_frame be input w1) as (urls & c & Hlen & Hgen).
  exists urls.
  exists (match c with Return t => t | Throw e => errorText e end).
  split; [|split; [exact Hlen | rewrite Hgen; destruct c; reflexivity]].
  unfold sendMessage. fold input.
  apply String.eqb_neq in Hin. rewrite Hin, Hload. simpl.
  run_monad. unfold w1, userMsg in Hgen |- *. rewrite Hgen.
  destruct c; run_monad;
    unfold setChatLoading, setMessages, setChatInput; simpl;
    rewrite <- !app_assoc; reflexivity.
Qed.

End Chat.

(** ** The aggregation engine *)

Section Aggregation.

Import InsightsDashboard.

Lemma tally_lookup (counts : gmap string Js.number) (v : Violation) (s : string) :
  tally counts v !! s =
  if String.eqb (severity v) s then Some (Js.plus_one (counts !! s)) else counts !! s.
Proof.
  unfold tally. destruct (String.eqb_spec (severity v) s) as [->|Hne].
  - apply lookup_insert_eq.
  - apply lookup_insert_ne. exact Hne.
Qed.

Lemma occurrences_cons (s : string) (v : Violation) (vs : list Violation) :
  occurrences s (v :: vs) =
  ((if String.eqb (severity v) s then 1 else 0) + occurrences s vs)%nat.
Proof.
  unfold occurrences. simpl. destruct (String.eqb (severity v) s); reflexivity.
Qed.

(** A bucket that holds a count keeps holding one: it grows by the number of
    items of that very severity, whatever else is in the sample. *)
Lemma foldl_tally_lookup (vs : list Violation) :
  forall (counts : gmap string Js.number) (s : string) (z : Z),
    counts !! s = Some (Js.Num z) ->
    foldl tally counts vs !! s = Some (Js.Num (z + Z.of_nat (occurrences s vs))).
Proof.
  induction vs as [|v vs IH]; intros counts s z Hz.
  - simpl. rewrite Hz. do 2 f_equal. unfold occurrences. simpl. lia.
  - simpl foldl. rewrite occurrences_cons.
    destruct (String.eqb (severity v) s) eqn:E.
    + rewrite (IH _ s (z + 1)%Z).
      * do 2 f_equal. lia.
      * rewrite tally_lookup, E, Hz. reflexivity.
    + rewrite (IH _ s z).
      * do 2 f_equal.
      * rewrite tally_lookup, E. exact Hz.
Qed.

Lemma known_occurrences (vs : list Violation) :
  (occurrences "LOW" vs + occurrences "MEDIUM" vs + occurrences "HIGH" vs
   + occurrences "CRITICAL" vs)%nat
  = length (List.filter knownSeverity vs).
Proof.
  induction vs as [|v vs IH]; [reflexivity|].
  rewrite !occurrences_cons. cbn [List.filter].
  unfold knownSeverity at 1. cbn [existsb severityOrder].
  destruct (String.eqb_spec (severity v) "LOW") as [E|_];
    [rewrite ?E; simpl; lia|].
  destruct (String.eqb_spec (severity v) "MEDIUM") as [E|_];
    [rewrite ?E; simpl; lia|].
  destruct (String.eqb_spec (severity v) "HIGH") as [E|_];
    [rewrite ?E; simpl; lia|].
  destruct (String.eqb_spec (severity v) "CRITICAL") as [E|_];
    [rewrite ?E; simpl; lia|].
  simpl. lia.
Qed.

(** C7. The tally is a total function of the sample. Each of the four
    buckets ends up with the number of items of its severity; an item whose
    severity is none of the four changes none of the four buckets; and the
    four counts add up to the number of items with a known severity, which is
    the size of the sample when every severity is known. *)
Theorem severity_tally_counts_known_severities :
  forall violations : list Violation,
    (forall s, s ∈ severityOrder ->
       severityCounts violations !! s = Some (Js.Num (Z.of_nat (occurrences s violations))))
    /\ (forall (counts : gmap string Js.number) (v : Violation),
          knownSeverity v = false ->
          forall s, s ∈ severityOrder -> tally counts v !! s = counts !! s)
    /\ (exists low medium high critical : Z,
          severityCounts violations !! "LOW" = Some (Js.Num low)
          /\ severityCounts violations !! "MEDIUM" = Some (Js.Num medium)
          /\ severityCounts violations !! "HIGH" = Some (Js.Num high)
          /\ severityCounts violations !! "CRITICAL" = Some (Js.Num critical)
          /\ (low + medium + high + critical)%Z
             = Z.of_nat (length (List.filter knownSeverity violations))
          /\ (forallb knownSeverity violations = true ->
              (low + medium + high + critical)%Z = Z.of_nat (length violations))).
Proof.
  intros violations.
  assert (Hbucket : forall s, s ∈ severityOrder ->
    severityCounts violations !! s = Some (Js.Num (Z.of_nat (occurrences s violations)))).
  { intros s Hs. unfold severityCounts.
    rewrite (foldl_tally_lookup violations _ s 0%Z); [reflexivity|].
    unfold severityOrder in Hs.
    repeat (apply elem_of_cons in Hs as [-> | Hs]; [reflexivity|]).
    apply elem_of_nil in Hs. contradiction. }
  split; [exact Hbucket|]. split.
  - intros counts v Hv s Hs. rewrite tally_lookup.
    destruct (String.eqb_spec (severity v) s) as [E|_]; [|reflexivity].
    exfalso. unfold knownSeverity in Hv.
    assert (Ht : existsb (String.eqb (severity v)) severityOrder = true).
    { apply existsb_exists. exists s. split.
      - apply list_elem_of_In. exact Hs.
      - apply String.eqb_eq. exact E. }
    congruence.
  - exists (Z.of_nat (occurrences "LOW" violations)),
      (Z.of_nat (occurrences "MEDIUM" violations)),
      (Z.of_nat (occurrences "HIGH" violations)),
      (Z.of_nat (occurrences "CRITICAL" violations)).
    repeat (split; [apply Hbucket; unfold severityOrder; set_solver|]).
    assert (Hsum := known_occurrences violations).
    split; [lia|].
    intros Hall.
    assert (Hf : List.filter knownSeverity violations = violations).
    { clear -Hall. induction violations as [|v vs IH]; [reflexivity|].
      simpl in *. apply andb_true_iff in Hall as [Hv Hvs].
      rewrite Hv, (IH Hvs). reflexivity. }
    rewrite Hf in Hsum. lia.
Qed.

Lemma decided_cons (d : option Decision) (r : Request) (rs : list Request) :
  decided d (r :: rs) =
  ((match decision r, d with
    | None, None => 1
    | Some APPROVE, Some APPROVE => 1
    | Some FLAG, Some FLAG => 1
    | Some KILL, Some KILL => 1
    | _, _ => 0
    end) + decided d rs)%N.
Proof.
  unfold decided. simpl.
  destruct (decision r) as [[]|], d as [[]|]; simpl length; lia.
Qed.

Lemma foldl_count (rs : list Request) :
  forall c : Counts,
    foldl count c rs =
    mkCounts (cAPPROVE c + decided (Some APPROVE) rs) (cFLAG c + decided (Some FLAG) rs)
      (cKILL c + decided (Some KILL) rs) (cPENDING c + decided None rs).
Proof.
  induction rs as [|r rs IH]; intros c.
  - destruct c. simpl. unfold decided. simpl. f_equal; lia.
  - simpl foldl. rewrite IH, !decided_cons. unfold count.
    destruct (decision r) as [[]|]; simpl; f_equal; lia.
Qed.

Lemma decided_total (rs : list Request) :
  (decided (Some APPROVE) rs + decided (Some FLAG) rs + decided (Some KILL) rs
   + decided None rs)%N = N.of_nat (length rs).
Proof.
  induction rs as [|r rs IH]; [reflexivity|].
  rewrite !decided_cons. simpl length.
  destruct (decision r) as [[]|]; lia.
Qed.

Lemma percent_total (a f k p n : N) :
  (a + f + k + p)%N = n -> (0 < n)%N ->
  (percent a n + percent f n + percent k n + percent p n == 100)%Q.
Proof.
  intros Hsum Hpos. unfold percent.
  assert (Hn : (inject_Z (Z.of_N n) ==
                inject_Z (Z.of_N a) + inject_Z (Z.of_N f) + inject_Z (Z.of_N k)
                + inject_Z (Z.of_N p))%Q).
  { rewrite <- !inject_Z_plus. apply inject_Z_injective. lia. }
  assert (Hnz : ~ (inject_Z (Z.of_N n) == 0)%Q).
  { intros H. unfold Qeq in H. simpl in H. lia. }
  rewrite Hn in Hnz |- *. field. exact Hnz.
Qed.

(** C2, as the code has it. The tally has the four buckets APPROVE, FLAG,
    KILL and PENDING, a request without decision counting as PENDING; the
    four counts add up to the size of the sample; each percentage is the
    count over max(1, size) times 100; the boundaries accumulate the
    percentages in the order APPROVE, FLAG, KILL, PENDING; and the last
    boundary is 100 for a sample that is not empty and 0 for the empty
    sample. The percentages are exact rationals here, so the tolerance of
    the floating-point operations does not appear. *)
Theorem decision_distribution_buckets_and_boundaries :
  forall requests : list Request,
    let d := decisionDistribution requests in
    let total := N.max 1 (N.of_nat (length requests)) in
    let c := counts d in
    c = mkCounts (decided (Some APPROVE) requests) (decided (Some FLAG) requests)
          (decided (Some KILL) requests) (decided None requests)
    /\ (cAPPROVE c + cFLAG c + cKILL c + cPENDING c)%N = N.of_nat (length requests)
    /\ boundaries d =
       [percent (cAPPROVE c) total;
        (percent (cAPPROVE c) total + percent (cFLAG c) total)%Q;
        (percent (cAPPROVE c) total + percent (cFLAG c) total + percent (cKILL c) total)%Q;
        (percent (cAPPROVE c) total + percent (cFLAG c) total + percent (cKILL c) total
         + percent (cPENDING c) total)%Q]
    /\ (lastBoundary d == match requests with [] => 0 | _ :: _ => 100 end)%Q.
Proof.
  intros requests d total c.
  assert (Hc : c = mkCounts (decided (Some APPROVE) requests) (decided (Some FLAG) requests)
                     (decided (Some KILL) requests) (decided None requests)).
  { unfold c, d, decisionDistribution. cbn [counts]. rewrite foldl_count. reflexivity. }
  assert (Hsum : (cAPPROVE c + cFLAG c + cKILL c + cPENDING c)%N = N.of_nat (length requests)).
  { rewrite Hc. cbn [cAPPROVE cFLAG cKILL cPENDING]. apply decided_total. }
  split; [exact Hc|]. split; [exact Hsum|]. split; [reflexivity|].
  change (lastBoundary d)
    with (percent (cAPPROVE c) total + percent (cFLAG c) total + percent (cKILL c) total
          + percent (cPENDING c) total)%Q.
  destruct requests as [|r rs].
  - reflexivity.
  - apply percent_total.
    + rewrite Hsum. unfold total. simpl length. lia.
    + unfold total. lia.
Qed.

(** C2, as the specification words it, fails on the empty sample: every
    percentage is then 0 over 1, and the last boundary is 0, not 100. *)
Lemma empty_sample_last_boundary_is_zero :
  (lastBoundary (decisionDistribution []) == 0)%Q
  /\ ~ (lastBoundary (decisionDistribution []) == 100)%Q.
Proof.
  split; [reflexivity|]. intros H. vm_compute in H. discriminate.
Qed.

End Aggregation.

(** ** Sorting with a comparator *)

Section Sorting.

Context {A : Type}.
Variable cmp : A -> A -> Z.

Lemma sort_insert_perm (x : A) (l : list A) : sort_insert cmp x l ≡ₚ x :: l.
Proof.
  induction l as [|y l IH]; simpl; [reflexivity|].
  destruct (cmp x y <=? 0)%Z; [reflexivity|].
  rewrite IH. apply Permutation_swap.
Qed.

Lemma foldr_insert_perm (l : list A) : foldr (sort_insert cmp) [] l ≡ₚ l.
Proof.
  induction l as [|x l IH]; simpl; [reflexivity|].
  rewrite sort_insert_perm, IH. reflexivity.
Qed.

Variable D : A -> Prop.
Hypothesis consistent : Consistent D cmp.

Lemma cmp_tie_sym (a b : A) : D a -> D b -> cmp a b = 0%Z -> cmp b a = 0%Z.
Proof.
  intros Ha Hb H.
  pose proof (cmp_antisym D cmp consistent a b Ha Hb).
  pose proof (cmp_antisym D cmp consistent b a Hb Ha). lia.
Qed.

Lemma cmp_total (a b : A) : D a -> D b -> (~ (cmp a b <= 0) -> cmp b a < 0)%Z.
Proof.
  intros Ha Hb H. apply (cmp_antisym D cmp consistent b a Hb Ha). lia.
Qed.

Lemma sort_insert_sorted (x : A) (l : list A) :
  D x -> Forall D l ->
  StronglySorted (fun a b => (cmp a b <= 0)%Z) l ->
  StronglySorted (fun a b => (cmp a b <= 0)%Z) (sort_insert cmp x l).
Proof.
  intros Hx HD Hs. induction Hs as [|y l Hs IH Hy]; simpl.
  - repeat constructor.
  - apply Forall_cons in HD as [Dy Dl].
    destruct (Z.leb_spec (cmp x y) 0) as [Hle|Hgt].
    + constructor; [constructor; assumption|].
      constructor; [exact Hle|].
      rewrite Forall_forall in Hy, Dl |- *. intros b Hb.
      apply (cmp_trans D cmp consistent x y b); auto.
    + constructor; [apply IH; exact Dl|].
      rewrite sort_insert_perm. constructor; [|exact Hy].
      pose proof (cmp_total x y Hx Dy). lia.
Qed.

Lemma foldr_insert_sorted (l : list A) :
  Forall D l ->
  StronglySorted (fun a b => (cmp a b <= 0)%Z) (foldr (sort_insert cmp) [] l).
Proof.
  induction l as [|x l IH]; intros HD; simpl; [constructor|].
  apply Forall_cons in HD as [Dx Dl].
  apply sort_insert_sorted; [exact Dx | | apply IH; exact Dl].
  rewrite foldr_insert_perm. exact Dl.
Qed.

(** Inserting an element does not change the order in which the elements
    that tie with a given one follow each other. *)
Lemma sort_insert_ties (x y : A) (l : list A) :
  D x -> D y -> Forall D l ->
  List.filter (fun b => (cmp x b =? 0)%Z) (sort_insert cmp y l)
  = List.filter (fun b => (cmp x b =? 0)%Z) (y :: l).
Proof.
  intros Hx Hy HD. induction l as [|z l IH]; [reflexivity|].
  apply Forall_cons in HD as [Dz Dl]. cbn [sort_insert].
  destruct (Z.leb_spec (cmp y z) 0) as [Hle|Hgt]; [reflexivity|].
  cbn [List.filter] in IH |- *. rewrite (IH Dl).
  destruct (Z.eqb_spec (cmp x y) 0) as [Exy|_];
    destruct (Z.eqb_spec (cmp x z) 0) as [Exz|_]; try reflexivity.
  exfalso.
  pose proof (cmp_tie_sym x y Hx Hy Exy) as Eyx.
  pose proof (cmp_trans D cmp consistent y x z Hy Hx Dz). lia.
Qed.

Lemma foldr_insert_ties (x : A) (l : list A) :
  D x -> Forall D l ->
  List.filter (fun b => (cmp x b =? 0)%Z) (foldr (sort_insert cmp) [] l)
  = List.filter (fun b => (cmp x b =? 0)%Z) l.
Proof.
  intros Hx. induction l as [|y l IH]; intros HD; [reflexivity|].
  apply Forall_cons in HD as [Dy Dl]. simpl foldr.
  rewrite sort_insert_ties; [| exact Hx | exact Dy | rewrite foldr_insert_perm; exact Dl].
  cbn [List.filter]. rewrite (IH Dl). reflexivity.
Qed.

Lemma cmp_refl (a : A) : D a -> cmp a a = 0%Z.
Proof.
  intros Ha. pose proof (cmp_antisym D cmp consistent a a Ha Ha). lia.
Qed.

(** A sorted list in which ties stand in a given order is determined by its
    elements: two such lists with the same elements are the same list. *)
Lemma sorted_stable_unique (l1 : list A) :
  forall l2 : list A,
    Forall D l1 -> l1 ≡ₚ l2 ->
    StronglySorted (fun a b => (cmp a b <= 0)%Z) l1 ->
    StronglySorted (fun a b => (cmp a b <= 0)%Z) l2 ->
    (forall x, D x -> List.filter (fun b => (cmp x b =? 0)%Z) l1
                      = List.filter (fun b => (cmp x b =? 0)%Z) l2) ->
    l1 = l2.
Proof.
  induction l1 as [|a l1 IH]; intros l2 HD Hperm Hs1 Hs2 Hties.
  - symmetry. apply Permutation_nil. exact Hperm.
  - destruct l2 as [|b l2]; [symmetry in Hperm; apply Permutation_nil_cons in Hperm; contradiction|].
    apply Forall_cons in HD as [Da Dl1].
    apply StronglySorted_inv in Hs1 as [Hs1 Ha].
    apply StronglySorted_inv in Hs2 as [Hs2 Hb].
    rewrite Forall_forall in Ha, Hb.
    assert (Db : D b).
    { assert (Hin : b ∈ a :: l1) by (rewrite Hperm; left).
      apply elem_of_cons in Hin as [-> | Hin]; [exact Da|].
      rewrite Forall_forall in Dl1. apply Dl1. exact Hin. }
    assert (Hab : (cmp a b <= 0)%Z).
    { assert (Hin : b ∈ a :: l1) by (rewrite Hperm; left).
      apply elem_of_cons in Hin as [-> | Hin]; [rewrite (cmp_refl a Da); lia | apply Ha; exact Hin]. }
    assert (Hba : (cmp b a <= 0)%Z).
    { assert (Hin : a ∈ b :: l2) by (rewrite <- Hperm; left).
      apply elem_of_cons in Hin as [-> | Hin]; [rewrite (cmp_refl b Db); lia | apply Hb; exact Hin]. }
    assert (Etie : cmp a b = 0%Z).
    { pose proof (cmp_antisym D cmp consistent a b Da Db). lia. }
    assert (Eab : a = b).
    { pose proof (Hties a Da) as H. cbn [List.filter] in H.
      rewrite (cmp_refl a Da), Etie in H. simpl in H. congruence. }
    subst b. f_equal. apply IH; try assumption.
    + apply (Permutation_cons_inv Hperm).
    + intros x Dx. pose proof (Hties x Dx) as H. cbn [List.filter] in H.
      destruct (cmp x a =? 0)%Z; congruence.
Qed.

(** So the model does not depend on the algorithm: whatever list is a sorted
    rearrangement of [l] that keeps ties in their order is the list the
    insertion sort returns. *)
Lemma any_stable_sort_agrees (l result : list A) :
  Forall D l -> result ≡ₚ l ->
  StronglySorted (fun a b => (cmp a b <= 0)%Z) result ->
  (forall x, D x -> List.filter (fun b => (cmp x b =? 0)%Z) result
                    = List.filter (fun b => (cmp x b =? 0)%Z) l) ->
  result = foldr (sort_insert cmp) [] l.
Proof.
  intros HD Hperm Hs Hties.
  apply sorted_stable_unique; try assumption.
  - rewrite Hperm. exact HD.
  - rewrite Hperm, foldr_insert_perm. reflexivity.
  - apply foldr_insert_sorted. exact HD.
  - intros x Dx. rewrite (Hties x Dx), (foldr_insert_ties x l Dx HD). reflexivity.
Qed.

End Sorting.

Lemma StronglySorted_lookup {A : Type} (R : A -> A -> Prop) (l : list A) :
  StronglySorted R l ->
  forall (i j : nat) (a b : A),
    (i < j)%nat -> l !! i = Some a -> l !! j = Some b -> R a b.
Proof.
  induction 1 as [|x l Hs IH Hx]; intros i j a b Hij Hi Hj.
  - rewrite lookup_nil in Hi. discriminate.
  - destruct j as [|j]; [lia|]. simpl in Hj. destruct i as [|i].
    + simpl in Hi. injection Hi as <-.
      rewrite Forall_forall in Hx. apply Hx.
      apply list_elem_of_lookup. exists j. exact Hj.
    + simpl in Hi. apply (IH i j); [lia | exact Hi | exact Hj].
Qed.

(** ** The request list *)

Section RequestListView.

Import RequestList.

Variable getTime : string -> Js.number.
Variable localeCompare : string -> string -> Z.

Local Abbreviation cmpKey sortBy := (SortCompare (keyCompare getTime localeCompare sortBy)).
Local Abbreviation cmpAll starredIds sortBy :=
  (SortCompare (compareRequests getTime localeCompare starredIds sortBy)).

Lemma lookupStar_true (starredIds : gset string) (key : string) :
  lookupStar starredIds key = true <-> key ∈ starredIds \/ Js.inherited key = true.
Proof. unfold lookupStar. rewrite orb_true_iff, bool_decide_eq_true. reflexivity. Qed.

Lemma lookupStar_own (starredIds : gset string) (key : string) :
  Js.inherited key = false -> (lookupStar starredIds key = true <-> key ∈ starredIds).
Proof.
  intros H. unfold lookupStar. rewrite H, orb_false_r. apply bool_decide_eq_true.
Qed.

Lemma isStarred_true (starredIds : gset string) (r : Request) :
  isStarred starredIds r = true <-> id r ∈ starredIds \/ Js.inherited (id r) = true.
Proof. apply lookupStar_true. Qed.

Lemma isStarred_own (starredIds : gset string) (r : Request) :
  Js.inherited (id r) = false -> (isStarred starredIds r = true <-> id r ∈ starredIds).
Proof. apply lookupStar_own. Qed.

(** The comparator by cases on the star status of its arguments. *)
Lemma cmpAll_cases (starredIds : gset string) (sortBy : SortKey.t) (a b : Request) :
  cmpAll starredIds sortBy a b =
  match isStarred starredIds a, isStarred starredIds b with
  | true, false => (-1)%Z
  | false, true => 1%Z
  | _, _ => cmpKey sortBy a b
  end.
Proof.
  unfold SortCompare, compareRequests.
  destruct (isStarred starredIds a), (isStarred starredIds b); reflexivity.
Qed.

(** *** Pinning, for any platform *)

Lemma insert_among_unstarred (starredIds : gset string) (sortBy : SortKey.t)
    (x : Request) (rest : list Request) :
  isStarred starredIds x = false ->
  Forall (fun r => isStarred starredIds r = false) rest ->
  sort_insert (cmpAll starredIds sortBy) x rest = sort_insert (cmpKey sortBy) x rest.
Proof.
  intros Hx. induction 1 as [|y rest Hy _ IH]; [reflexivity|].
  simpl. rewrite cmpAll_cases, Hx, Hy, IH. reflexivity.
Qed.

Lemma insert_starred (starredIds : gset string) (sortBy : SortKey.t)
    (x : Request) (pinned rest : list Request) :
  isStarred starredIds x = true ->
  Forall (fun r => isStarred starredIds r = true) pinned ->
  Forall (fun r => isStarred starredIds r = false) rest ->
  sort_insert (cmpAll starredIds sortBy) x (pinned ++ rest)
  = sort_insert (cmpKey sortBy) x pinned ++ rest.
Proof.
  intros Hx Hp Hr. induction Hp as [|y pinned Hy _ IH].
  - destruct Hr as [|z rest Hz _]; [reflexivity|].
    simpl. rewrite cmpAll_cases, Hx, Hz. reflexivity.
  - simpl. rewrite cmpAll_cases, Hx, Hy, IH.
    destruct (cmpKey sortBy x y <=? 0)%Z; reflexivity.
Qed.

Lemma insert_unstarred (starredIds : gset string) (sortBy : SortKey.t)
    (x : Request) (pinned rest : list Request) :
  isStarred starredIds x = false ->
  Forall (fun r => isStarred starredIds r = true) pinned ->
  Forall (fun r => isStarred starredIds r = false) rest ->
  sort_insert (cmpAll starredIds sortBy) x (pinned ++ rest)
  = pinned ++ sort_insert (cmpKey sortBy) x rest.
Proof.
  intros Hx Hp Hr. induction Hp as [|y pinned Hy _ IH].
  - apply insert_among_unstarred; assumption.
  - simpl. rewrite cmpAll_cases, Hx, Hy, IH. reflexivity.
Qed.

Lemma Forall_filter_true {A : Type} (f : A -> bool) (l : list A) :
  Forall (fun x => f x = true) (List.filter f l).
Proof.
  apply Forall_forall. intros x Hx.
  apply list_elem_of_In, filter_In in Hx. tauto.
Qed.

(** The starred requests come first, sorted among themselves by the key
    alone, then the others, sorted among themselves by the key alone. *)
Lemma sort_pinned_then_rest (starredIds : gset string) (sortBy : SortKey.t)
    (l : list Request) :
  sort (compareRequests getTime localeCompare starredIds sortBy) l
  = sort (keyCompare getTime localeCompare sortBy) (List.filter (isStarred starredIds) l)
    ++ sort (keyCompare getTime localeCompare sortBy)
         (List.filter (fun r => negb (isStarred starredIds r)) l).
Proof.
  unfold sort. induction l as [|x l IH]; [reflexivity|].
  simpl foldr. rewrite IH. cbn [List.filter].
  assert (Hp : Forall (fun r => isStarred starredIds r = true)
                 (foldr (sort_insert (cmpKey sortBy)) []
                    (List.filter (isStarred starredIds) l))).
  { rewrite foldr_insert_perm. apply Forall_filter_true. }
  assert (Hr : Forall (fun r => isStarred starredIds r = false)
                 (foldr (sort_insert (cmpKey sortBy)) []
                    (List.filter (fun r => negb (isStarred starredIds r)) l))).
  { rewrite foldr_insert_perm.
    eapply Forall_impl; [apply (Forall_filter_true (fun r => negb (isStarred starredIds r)))|].
    intros r Hn. simpl in Hn. apply negb_true_iff in Hn. exact Hn. }
  destruct (isStarred starredIds x) eqn:Hx; simpl negb; cbv iota.
  - simpl foldr. apply insert_starred; assumption.
  - simpl foldr. apply insert_unstarred; assumption.
Qed.

Lemma visible_perm (requests : list Request) (search : string) (showStarredOnly : bool)
    (sortBy : SortKey.t) (starredIds : gset string) :
  visibleRequests getTime localeCompare requests search showStarredOnly sortBy starredIds
  ≡ₚ filtered requests search showStarredOnly starredIds.
Proof. unfold visibleRequests, sort. apply foldr_insert_perm. Qed.

Lemma visible_pinned_first (requests : list Request) (search : string)
    (showStarredOnly : bool) (sortBy : SortKey.t) (starredIds : gset string) :
  forall (i j : nat) (a b : Request),
    (i < j)%nat ->
    visibleRequests getTime localeCompare requests search showStarredOnly sortBy starredIds
      !! i = Some a ->
    visibleRequests getTime localeCompare requests search showStarredOnly sortBy starredIds
      !! j = Some b ->
    isStarred starredIds b = true -> isStarred starredIds a = true.
Proof.
  intros i j a b Hij Hi Hj Hb.
  unfold visibleRequests in Hi, Hj. rewrite sort_pinned_then_rest in Hi, Hj.
  set (shown := filtered requests search showStarredOnly starredIds) in *.
  set (pinned := sort _ (List.filter (isStarred starredIds) shown)) in *.
  set (rest := sort _ (List.filter (fun r => negb (isStarred starredIds r)) shown)) in *.
  assert (Hp : Forall (fun r => isStarred starredIds r = true) pinned).
  { unfold pinned, sort. rewrite foldr_insert_perm. apply Forall_filter_true. }
  assert (Hr : Forall (fun r => negb (isStarred starredIds r) = true) rest).
  { unfold rest, sort. rewrite foldr_insert_perm.
    apply (Forall_filter_true (fun r => negb (isStarred starredIds r))). }
  destruct (decide (i < length pinned)%nat) as [Hlt|Hge].
  - rewrite lookup_app_l in Hi by exact Hlt.
    rewrite Forall_forall in Hp. apply Hp.
    apply list_elem_of_lookup. exists i. exact Hi.
  - rewrite lookup_app_r in Hj by lia.
    rewrite Forall_forall in Hr.
    assert (Hin : b ∈ rest) by (apply list_elem_of_lookup; eexists; exact Hj).
    apply Hr in Hin. rewrite Hb in Hin. discriminate.
Qed.

(** Toggling a star twice gives the star set back, and a toggle touches the
    one id only. *)
Lemma toggleStar_elem (requestId x : string) (starredIds : gset string) :
  x ∈ toggleStar requestId starredIds
  <-> (x ∈ starredIds /\ x <> requestId)
      \/ (x = requestId /\ lookupStar starredIds requestId = false).
Proof.
  unfold toggleStar. destruct (lookupStar starredIds requestId) eqn:E.
  - rewrite elem_of_difference, elem_of_singleton.
    split; [intros [H1 H2]; left; split; assumption|].
    intros [[H1 H2] | [_ H]]; [split; assumption | discriminate].
  - assert (Hout : requestId ∉ starredIds).
    { intros Hin. assert (lookupStar starredIds requestId = true) as Ht
        by (apply lookupStar_true; left; exact Hin). congruence. }
    rewrite elem_of_union, elem_of_singleton.
    split.
    + intros [H | ->]; [left; split; [exact H|]; intros ->; contradiction | right; split; reflexivity].
    + intros [[H _] | [-> _]]; [left; exact H | right; reflexivity].
Qed.

Lemma toggleStar_other (requestId other : string) (starredIds : gset string) :
  other <> requestId ->
  (other ∈ toggleStar requestId starredIds <-> other ∈ starredIds).
Proof.
  intros Hne. rewrite toggleStar_elem.
  split; [intros [[H _] | [E _]]; [exact H | contradiction] | intros H; left; split; assumption].
Qed.

(** Toggling an id that names no inherited property flips its membership. *)
Lemma toggleStar_flips (requestId : string) (starredIds : gset string) :
  Js.inherited requestId = false ->
  (requestId ∈ toggleStar requestId starredIds <-> requestId ∉ starredIds).
Proof.
  intros Hown. rewrite toggleStar_elem.
  destruct (decide (requestId ∈ starredIds)) as [Hin|Hout].
  - assert (Ht : lookupStar starredIds requestId = true)
      by (apply lookupStar_true; left; exact Hin).
    split; [intros [[_ H] | [_ H]]; [contradiction | congruence] | contradiction].
  - split; [intros _; exact Hout|]. intros _. right. split; [reflexivity|].
    destruct (lookupStar starredIds requestId) eqn:E; [|reflexivity].
    apply (lookupStar_own _ _ Hown) in E. contradiction.
Qed.

Lemma toggleStar_involutive (requestId : string) (starredIds : gset string) :
  Js.inherited requestId = false ->
  toggleStar requestId (toggleStar requestId starredIds) = starredIds.
Proof.
  intros Hown. apply set_eq. intros x.
  destruct (decide (x = requestId)) as [->|Hne].
  - rewrite (toggleStar_flips _ _ Hown), (toggleStar_flips _ _ Hown).
    split; [|intros H Hn; exact (Hn H)].
    intros H. destruct (decide (requestId ∈ starredIds)) as [Hin|Hn];
      [exact Hin | exfalso; exact (H Hn)].
  - rewrite !(toggleStar_other _ _ _ Hne). reflexivity.
Qed.

(** An id that names an inherited property is never in the set after a
    toggle: the lookup finds the inherited value and the key is deleted. *)
Lemma toggleStar_inherited (requestId : string) (starredIds : gset string) :
  Js.inherited requestId = true -> requestId ∉ toggleStar requestId starredIds.
Proof.
  intros Hinh. rewrite toggleStar_elem.
  assert (Ht : lookupStar starredIds requestId = true)
    by (apply lookupStar_true; right; exact Hinh).
  intros [[_ H] | [_ H]]; [contradiction | congruence].
Qed.

Lemma matchesSearch_spec (query : string) (r : Request) :
  matchesSearch query r = true
  <-> exists field, field ∈ searchedFields r /\ Substring query (Js.toLowerCase field).
Proof.
  unfold matchesSearch, searchedFields. split.
  - rewrite !orb_true_iff.
    intros [[[[[[H | H] | H] | H] | H] | H] | H].
    + apply length_zero_empty in H. subst query.
      exists (id r). split; [set_solver|]. apply includes_spec, includes_empty.
    + exists (id r). split; [set_solver | apply includes_spec; exact H].
    + exists (agentId r). split; [set_solver | apply includes_spec; exact H].
    + exists (action r). split; [set_solver | apply includes_spec; exact H].
    + exists (target r). split; [set_solver | apply includes_spec; exact H].
    + exists (status r). split; [set_solver | apply includes_spec; exact H].
    + exists (decisionOrEmpty r). split; [set_solver | apply includes_spec; exact H].
  - intros (field & Hin & Hsub). apply includes_spec in Hsub.
    repeat (apply elem_of_cons in Hin as [-> | Hin];
            [rewrite Hsub, ?orb_true_r; reflexivity|]).
    apply elem_of_nil in Hin. contradiction.
Qed.

Lemma decisionOrEmpty_default (r : Request) :
  decisionOrEmpty r = default EmptyString (decision r).
Proof.
  unfold decisionOrEmpty. destruct (decision r) as [[|c d]|]; reflexivity.
Qed.

(** C5, as the code has it. A request whose id names no property that
    objects inherit, or any request while the starred-only switch is off, is
    shown by the filter exactly when it was fetched, the trimmed and
    lower-cased query is a substring of its lower-cased id, agent id, action,
    target, status or decision (the empty string for an absent decision),
    and, when only starred requests are asked for, its id is in the star
    set. A query that is empty after trimming matches every request. The
    sorted view shows the same requests. *)
Theorem filter_matches_trimmed_lowercased_query :
  forall (requests : list Request) (search : string) (showStarredOnly : bool)
         (starredIds : gset string) (r : Request),
    showStarredOnly = false \/ Js.inherited (id r) = false ->
    (r ∈ filtered requests search showStarredOnly starredIds
     <-> r ∈ requests /\ Matches search r
         /\ (showStarredOnly = true -> id r ∈ starredIds))
    /\ searchedFields r
       = [id r; agentId r; action r; target r; status r; default EmptyString (decision r)]
    /\ (Js.trim search = EmptyString -> Matches search r)
    /\ (forall sortBy : SortKey.t,
          r ∈ visibleRequests getTime localeCompare requests search showStarredOnly sortBy
                starredIds
          <-> r ∈ filtered requests search showStarredOnly starredIds).
Proof.
  intros requests search showStarredOnly starredIds r Hown.
  split; [|split; [|split]].
  - unfold filtered, Matches.
    rewrite !list_elem_of_In, filter_In, andb_true_iff, matchesSearch_spec.
    unfold matchesStarred. rewrite orb_true_iff, negb_true_iff.
    destruct Hown as [-> | Hown].
    + split; [intros (H1 & H2 & _) | intros (H1 & H2 & _)];
        (split; [exact H1|]; split; [exact H2|]); [discriminate | left; reflexivity].
    + rewrite (isStarred_own _ _ Hown).
      destruct showStarredOnly; intuition congruence.
  - unfold searchedFields. rewrite decisionOrEmpty_default. reflexivity.
  - intros Hempty. clear Hown. unfold Matches. rewrite Hempty.
    exists (id r). split; [unfold searchedFields; set_solver|].
    apply includes_spec, includes_empty.
  - intros sortBy. rewrite visible_perm. reflexivity.
Qed.

(** *** The sort key, for a platform whose [localeCompare] is consistent *)

Hypothesis locale_consistent : Consistent (fun _ : string => True) localeCompare.

Lemma key_consistent (sortBy : SortKey.t) :
  Consistent (sortable getTime sortBy) (cmpKey sortBy).
Proof.
  destruct locale_consistent as [Hanti Htrans].
  destruct sortBy; split; unfold SortCompare, keyCompare, sortable, validDate.
  - intros a b [ta ->] [tb ->]. simpl. lia.
  - intros a b c [ta ->] [tb ->] [tc ->]. simpl. lia.
  - intros a b [ta ->] [tb ->]. simpl. lia.
  - intros a b c [ta ->] [tb ->] [tc ->]. simpl. lia.
  - intros a b _ _. apply Hanti; exact I.
  - intros a b c _ _ _. apply Htrans; exact I.
  - intros a b _ _. apply Hanti; exact I.
  - intros a b c _ _ _. apply Htrans; exact I.
Qed.

Lemma all_consistent (starredIds : gset string) (sortBy : SortKey.t) :
  Consistent (sortable getTime sortBy) (cmpAll starredIds sortBy).
Proof.
  destruct (key_consistent sortBy) as [Hanti Htrans]. split.
  - intros a b Da Db. rewrite !cmpAll_cases.
    pose proof (Hanti a b Da Db).
    destruct (isStarred starredIds a), (isStarred starredIds b); lia.
  - intros a b c Da Db Dc. rewrite !cmpAll_cases.
    pose proof (Htrans a b c Da Db Dc).
    destruct (isStarred starredIds a), (isStarred starredIds b),
      (isStarred starredIds c); lia.
Qed.

Lemma key_le_inKeyOrder (sortBy : SortKey.t) (a b : Request) :
  sortable getTime sortBy a -> sortable getTime sortBy b ->
  (cmpKey sortBy a b <= 0)%Z ->
  inKeyOrder getTime localeCompare sortBy a b.
Proof.
  destruct sortBy; unfold SortCompare, keyCompare, sortable, inKeyOrder; simpl.
  - intros [ta Ha] [tb Hb]. rewrite Ha, Hb. simpl. intros H.
    exists ta, tb. repeat split; lia.
  - intros [ta Ha] [tb Hb]. rewrite Ha, Hb. simpl. intros H.
    exists ta, tb. repeat split; lia.
  - intros _ _ H. exact H.
  - intros _ _ H. exact H.
Qed.

Lemma tiesWith_cmpAll (starredIds : gset string) (sortBy : SortKey.t) (x b : Request) :
  tiesWith getTime localeCompare starredIds sortBy x b
  = (cmpAll starredIds sortBy x b =? 0)%Z.
Proof.
  unfold tiesWith. rewrite cmpAll_cases.
  destruct (isStarred starredIds x), (isStarred starredIds b); reflexivity.
Qed.

Lemma filtered_sortable (sortBy : SortKey.t) (requests : list Request) (search : string)
    (showStarredOnly : bool) (starredIds : gset string) :
  Forall (sortable getTime sortBy) requests ->
  Forall (sortable getTime sortBy) (filtered requests search showStarredOnly starredIds).
Proof.
  intros H. rewrite Forall_forall in H |- *. intros r Hr.
  apply H. apply list_elem_of_In. apply list_elem_of_In in Hr.
  unfold filtered in Hr. apply filter_In in Hr. tauto.
Qed.

Lemma filtered_own_keys (requests : list Request) (search : string)
    (showStarredOnly : bool) (starredIds : gset string) :
  Forall (fun r => Js.inherited (id r) = false) requests ->
  Forall (fun r => Js.inherited (id r) = false)
    (filtered requests search showStarredOnly starredIds).
Proof.
  intros H. rewrite Forall_forall in H |- *. intros r Hr.
  apply H. apply list_elem_of_In. apply list_elem_of_In in Hr.
  unfold filtered in Hr. apply filter_In in Hr. tauto.
Qed.

(** X20. The view is a rearrangement of the filtered requests in which no
    request whose star lookup is falsy stands before one whose star lookup
    is truthy, for any sort key and any collection; when no fetched id names
    a property that objects inherit, this says that no request outside the
    star set stands before one inside it. When every request can be ordered
    by the key (for newest and oldest: its creation time is a valid date),
    two shown requests with the same star lookup stand in the order of the
    key (creation time descending for newest, ascending for oldest,
    [localeCompare] of the agent id or of the status otherwise), and the
    requests that tie with a given one keep the order in which they were
    fetched. *)
Theorem pinned_first_then_key_order_stable :
  forall (requests : list Request) (search : string) (showStarredOnly : bool)
         (sortBy : SortKey.t) (starredIds : gset string),
    let shown := filtered requests search showStarredOnly starredIds in
    let view :=
      visibleRequests getTime localeCompare requests search showStarredOnly sortBy starredIds in
    view ≡ₚ shown
    /\ (forall (i j : nat) (a b : Request),
          (i < j)%nat -> view !! i = Some a -> view !! j = Some b ->
          isStarred starredIds b = true -> isStarred starredIds a = true)
    /\ (Forall (fun r => Js.inherited (id r) = false) requests ->
        forall (i j : nat) (a b : Request),
          (i < j)%nat -> view !! i = Some a -> view !! j = Some b ->
          id b ∈ starredIds -> id a ∈ starredIds)
    /\ (Forall (sortable getTime sortBy) requests ->
        (forall (i j : nat) (a b : Request),
           (i < j)%nat -> view !! i = Some a -> view !! j = Some b ->
           isStarred starredIds a = isStarred starredIds b ->
           inKeyOrder getTime localeCompare sortBy a b)
        /\ (forall x : Request,
              sortable getTime sortBy x ->
              List.filter (tiesWith getTime localeCompare starredIds sortBy x) view
              = List.filter (tiesWith getTime localeCompare starredIds sortBy x) shown)).
Proof.
  intros requests search showStarredOnly sortBy starredIds shown view.
  split; [apply visible_perm|].
  split; [apply visible_pinned_first|].
  split.
  { intros Hown i j a b Hij Hi Hj Hb.
    assert (Hview : Forall (fun r => Js.inherited (id r) = false) view).
    { unfold view. rewrite visible_perm. apply filtered_own_keys. exact Hown. }
    rewrite Forall_forall in Hview.
    assert (Ha : Js.inherited (id a) = false)
      by (apply Hview, list_elem_of_lookup; eexists; exact Hi).
    apply (isStarred_own _ _ Ha).
    apply (visible_pinned_first _ _ _ _ _ i j a b Hij Hi Hj).
    apply isStarred_true. left. exact Hb. }
  intros Hreq.
  assert (Hshown : Forall (sortable getTime sortBy) shown)
    by (apply filtered_sortable; exact Hreq).
  assert (Hview : Forall (sortable getTime sortBy) view).
  { unfold view. rewrite visible_perm. exact Hshown. }
  split.
  - intros i j a b Hij Hi Hj Hstar.
    assert (Hs : StronglySorted (fun a b => (cmpAll starredIds sortBy a b <= 0)%Z) view).
    { unfold view, visibleRequests, sort.
      apply (foldr_insert_sorted _ _ (all_consistent starredIds sortBy)). exact Hshown. }
    pose proof (StronglySorted_lookup _ _ Hs i j a b Hij Hi Hj) as Hle.
    simpl in Hle. rewrite cmpAll_cases in Hle.
    rewrite Forall_forall in Hview.
    assert (Da : sortable getTime sortBy a)
      by (apply Hview, list_elem_of_lookup; eexists; exact Hi).
    assert (Db : sortable getTime sortBy b)
      by (apply Hview, list_elem_of_lookup; eexists; exact Hj).
    apply key_le_inKeyOrder; [exact Da | exact Db |].
    rewrite Hstar in Hle.
    destruct (isStarred starredIds b); exact Hle.
  - intros x Dx.
    rewrite !(List.filter_ext _ _ (tiesWith_cmpAll starredIds sortBy x)).
    unfold view, visibleRequests, sort.
    apply (foldr_insert_ties _ _ (all_consistent starredIds sortBy)); assumption.
Qed.

End RequestListView.

(** ** The properties on sample inputs *)

Section Samples.

Import DashboardApp.

(** Severities LOW, LOW, CRITICAL arrive in this order: the buffer reads
    CRITICAL, LOW, LOW. *)
Example buffer_most_recent_first_example :
  map severity (violations (run (initialState (Sample.fresh 0)) Sample.threeDetected))
  = ["CRITICAL"; "LOW"; "LOW"].
Proof. reflexivity. Qed.

(** Nine ingests leave the last eight in the buffer, the latest first. *)
Lemma violation_buffer_nine_ingests :
  length (omap ingested Sample.nineDetected) = 9%nat
  /\ length (violations (run (initialState (Sample.fresh 0)) Sample.nineDetected)) = 8%nat
  /\ violations (run (initialState (Sample.fresh 0)) Sample.nineDetected)
     = reverse (drop 1 (omap ingested Sample.nineDetected)).
Proof.
  split; [reflexivity|].
  destruct (violation_buffer_bounded_most_recent_first (Sample.fresh 0) Sample.nineDetected)
    as (_ & _ & _ & _ & Hnine).
  apply Hnine. reflexivity.
Defined.

Example buffer_nine_ingests_ids :
  map id (violations (run (initialState (Sample.fresh 0)) Sample.nineDetected))
  = ["uuid-9"; "uuid-8"; "uuid-7"; "uuid-6"; "uuid-5"; "uuid-4"; "uuid-3"; "uuid-2"].
Proof. reflexivity. Qed.

(** An event without description, sent after three good ones. *)
Lemma malformed_event_leaves_buffer_example :
  (type Sample.noDescription <> "violation:detected"
   \/ missingRequired (violation (data Sample.noDescription)))
  /\ violations
       (onLastEvent (Sample.fresh 4) (Some Sample.noDescription)
          (run (initialState (Sample.fresh 0)) Sample.threeDetected))
     = violations (run (initialState (Sample.fresh 0)) Sample.threeDetected).
Proof.
  assert (H : type Sample.noDescription <> "violation:detected"
              \/ missingRequired (violation (data Sample.noDescription))).
  { right. simpl. right. left. reflexivity. }
  split; [exact H|].
  exact (proj1 (foreign_or_malformed_event_leaves_buffer (Sample.fresh 4) Sample.noDescription
                  (run (initialState (Sample.fresh 0)) Sample.threeDetected) H)).
Defined.

(** An event whose severity is the empty string, sent after three good ones. *)
Lemma empty_severity_is_dropped_example :
  emptyRequired Sample.emptySeverity
  /\ onLastEvent (Sample.fresh 4)
       (Some (mkEvent "violation:detected" (mkData (Some Sample.emptySeverity))))
       (run (initialState (Sample.fresh 0)) Sample.threeDetected)
     = run (initialState (Sample.fresh 0)) Sample.threeDetected.
Proof.
  assert (H : emptyRequired Sample.emptySeverity).
  { right. right. reflexivity. }
  split; [exact H|].
  exact (proj2 (empty_required_field_is_dropped (Sample.fresh 4)
                  (mkEvent "violation:detected" (mkData (Some Sample.emptySeverity)))
                  Sample.emptySeverity
                  (run (initialState (Sample.fresh 0)) Sample.threeDetected)
                  eq_refl eq_refl H)).
Defined.



Example hello_gets_help :
  generateAssistantReply Sample.backend "hello" (Sample.asking "hello")
  = (Sample.asking "hello", Return helpText).
Proof. reflexivity. Qed.

Example stats_wins_over_kill :
  snd (generateAssistantReply Sample.backend "Kill stats" (Sample.asking "Kill stats"))
  = Return "Stats snapshot: total=10, approved=5, flagged=3, killed=2, blockedAgents=1.".
Proof. reflexivity. Qed.

(** An exchange whose fetch fails: the violation query is rejected. *)
Lemma failed_exchange_example :
  Js.trim (chatInput (st (Sample.asking " violations? "))) <> EmptyString
  /\ chatLoading (st (Sample.asking " violations? ")) = false
  /\ (let after :=
        fst (sendMessage Sample.backend (Sample.fresh 1) (Sample.fresh 2)
               (Sample.asking " violations? ")) in
      messages (st after)
      = messages (st (Sample.asking " violations? "))
        ++ [mkMessage "uuid-1" user "violations?" "time-1";
            mkMessage "uuid-2" assistant "Chatbot error: Failed to fetch" "time-2"]
      /\ chatLoading (st after) = false).
Proof.
  assert (Hin : Js.trim (chatInput (st (Sample.asking " violations? "))) <> EmptyString)
    by discriminate.
  split; [exact Hin|]. split; [reflexivity|].
  destruct (exchange_appends_user_then_one_assistant_message Sample.backend
              (Sample.fresh 1) (Sample.fresh 2) (Sample.asking " violations? ")
              Hin eq_refl) as (urls & botText & Heq & _ & Hbot).
  rewrite Heq. simpl in Hbot. subst botText. split; reflexivity.
Defined.

End Samples.

Section RequestListSamples.

Import RequestList.

Lemma codeUnitCompare_le (a b : string) :
  (codeUnitCompare a b <= 0)%Z <-> String.le a b.
Proof.
  unfold codeUnitCompare, String.le, String.leb.
  destruct (String.compare a b); simpl; split; intros H; try lia; try exact I;
    try contradiction.
Qed.

(** The comparison by code units is a consistent comparator. *)
Lemma codeUnitCompare_consistent : Consistent (fun _ : string => True) codeUnitCompare.
Proof.
  split.
  - intros a b _ _. unfold codeUnitCompare.
    rewrite (String.compare_antisym a b).
    destruct (String.compare b a); simpl; lia.
  - intros a b c _ _ _. rewrite !codeUnitCompare_le. intros Hab Hbc.
    transitivity b; assumption.
Qed.

(** The query a2 keeps the one request of agent a2, whatever the sort. *)
Example search_by_agent_example :
  visibleRequests sampleGetTime codeUnitCompare [Sample.r1; Sample.r2] "a2" false
    SortKey.agent ∅
  = [Sample.r2].
Proof. reflexivity. Qed.

(** Newest first, with the oldest request starred: it leads all the same. *)
Example pinned_leads_example :
  visibleRequests sampleGetTime codeUnitCompare Sample.requests EmptyString false
    SortKey.newest {["r1"]}
  = [Sample.r1; Sample.r3; Sample.r2].
Proof. reflexivity. Qed.

(** Two requests with the same status keep their fetch order. *)
Example stable_by_status_example :
  visibleRequests sampleGetTime codeUnitCompare Sample.requests EmptyString false
    SortKey.status ∅
  = [Sample.r2; Sample.r3; Sample.r1].
Proof. reflexivity. Qed.

Lemma sample_requests_sortable :
  Forall (sortable sampleGetTime SortKey.newest) Sample.requests.
Proof. repeat constructor; eexists; reflexivity. Qed.

(** Of the two requests without a star, the newer one stands first. *)
Lemma key_order_among_unstarred_example :
  Forall (sortable sampleGetTime SortKey.newest) Sample.requests
  /\ inKeyOrder sampleGetTime codeUnitCompare SortKey.newest Sample.r3 Sample.r2.
Proof.
  split; [exact sample_requests_sortable|].
  destruct (pinned_first_then_key_order_stable sampleGetTime codeUnitCompare
              codeUnitCompare_consistent Sample.requests EmptyString false
              SortKey.newest {["r1"]}) as (_ & _ & _ & Hkey).
  destruct (Hkey sample_requests_sortable) as [Horder _].
  apply (Horder 1%nat 2%nat); [lia | reflexivity | reflexivity |].
  vm_compute. reflexivity.
Defined.

(** C3 fails on a request whose id is constructor. The star set holds r1
    only, so the request has no star; the lookup [starredIds[request.id]]
    finds the inherited property of that name and is truthy all the same.
    Sorted newest first, the request stands before the starred r1, and
    before r3, which has no star either and is newer. *)
Theorem inherited_key_is_pinned_without_a_star :
  (id Sample.rc ∉ ({["r1"]} : gset string))
  /\ (id Sample.r3 ∉ ({["r1"]} : gset string))
  /\ id Sample.r1 ∈ ({["r1"]} : gset string)
  /\ sampleGetTime (createdAt Sample.rc) = Js.Num 1704153600000
  /\ sampleGetTime (createdAt Sample.r3) = Js.Num 1704240000000
  /\ visibleRequests sampleGetTime codeUnitCompare [Sample.r1; Sample.r3; Sample.rc]
       EmptyString false SortKey.newest {["r1"]}
     = [Sample.rc; Sample.r1; Sample.r3].
Proof.
  split; [compute_done|]. split; [compute_done|]. split; [compute_done|].
  split; [reflexivity|]. split; [reflexivity|]. vm_compute. reflexivity.
Qed.

(** With only starred requests asked for and r2 starred, the padded query
    A2 in capitals shows r2: its id names no inherited property, it was
    fetched, its agent id contains a2, and its id is in the star set. *)
Lemma starred_search_example :
  (true = false \/ Js.inherited (id Sample.r2) = false)
  /\ Sample.r2 ∈ filtered [Sample.r1; Sample.r2] " A2 " true {["r2"]}.
Proof.
  assert (Hown : true = false \/ Js.inherited (id Sample.r2) = false)
    by (right; reflexivity).
  split; [exact Hown|].
  destruct (filter_matches_trimmed_lowercased_query sampleGetTime codeUnitCompare
              [Sample.r1; Sample.r2] " A2 " true {["r2"]} Sample.r2 Hown)
    as (Hiff & _).
  apply Hiff. split; [|split].
  - apply list_elem_of_In. simpl. right. left. reflexivity.
  - exists "a2". split; [apply list_elem_of_In; simpl; right; left; reflexivity|].
    apply includes_spec. reflexivity.
  - intros _. apply elem_of_singleton. reflexivity.
Defined.

(** C5, as the specification words it, fails on a query with a blank at its
    end: the request is shown, yet the lower-cased query, blank included, is
    a substring of none of its six fields. *)
Lemma padded_query_is_shown_without_being_a_substring :
  Sample.r1 ∈ filtered [Sample.r1] "r1 " false ∅
  /\ ~ SpecMatches "r1 " Sample.r1.
Proof.
  split.
  - apply list_elem_of_In. simpl. left. reflexivity.
  - intros (field & Hin & Hsub). apply includes_spec in Hsub.
    unfold searchedFields in Hin.
    repeat (apply elem_of_cons in Hin as [-> | Hin]; [discriminate Hsub|]).
    apply elem_of_nil in Hin. exact Hin.
Qed.

End RequestListSamples.

(** * Further properties of the code *)

(** ** The typed headline *)

Section Headline.

Import App.

Lemma sliceTo_length (s : string) :
  forall n : nat, (n <= String.length s)%nat -> String.length (Js.sliceTo s n) = n.
Proof.
  induction s as [|c s IH]; intros [|n] Hn; simpl in *; try reflexivity; try lia.
  rewrite IH by lia. reflexivity.
Qed.

Lemma sliceTo_all (s : string) : Js.sliceTo s (String.length s) = s.
Proof. induction s as [|c s IH]; simpl; [reflexivity | rewrite IH; reflexivity]. Qed.

Lemma sliceTo_zero (s : string) : Js.sliceTo s 0 = EmptyString.
Proof. destruct s; reflexivity. Qed.

Lemma sliceTo_prefix (s : string) :
  forall n : nat, exists rest : string, s = Js.sliceTo s n +:+ rest.
Proof.
  induction s as [|c s IH]; intros [|n]; simpl.
  - exists EmptyString. reflexivity.
  - exists EmptyString. reflexivity.
  - exists (String c s). reflexivity.
  - destruct (IH n) as [rest Hrest]. exists rest.
    rewrite append_cons, <- Hrest. reflexivity.
Qed.

Lemma length_neq (a b : string) : String.length a <> String.length b -> String.eqb a b = false.
Proof. intros H. apply String.eqb_neq. intros ->. contradiction. Qed.

(** While typing, [k] characters shown and more to come. *)
Lemma tick_typing (t i k : nat) (text : string) :
  text = fullText (mkState false i EmptyString false) ->
  (k < String.length text)%nat ->
  tick (t, mkState false i (Js.sliceTo text k) false)
  = (t + typingSpeed, mkState false i (Js.sliceTo text (k + 1)) false)%nat.
Proof.
  intros Htext Hk. unfold tick, effect. cbn [snd fst started isDeleting display textIndex negb andb].
  change (fullText (mkState false i (Js.sliceTo text k) false)) with
    (fullText (mkState false i EmptyString false)).
  rewrite <- Htext.
  rewrite length_neq by (rewrite sliceTo_length; lia).
  rewrite sliceTo_length by lia.
  replace (Nat.min (String.length text) (k + 1)) with (k + 1)%nat by lia.
  reflexivity.
Qed.

(** While deleting, [k + 1] characters shown. *)
Lemma tick_deleting (t i k : nat) (text : string) :
  text = fullText (mkState false i EmptyString false) ->
  (k < String.length text)%nat ->
  tick (t, mkState false i (Js.sliceTo text (k + 1)) true)
  = (t + deletingSpeed, mkState false i (Js.sliceTo text k) true)%nat.
Proof.
  intros Htext Hk. unfold tick, effect. cbn [snd fst started isDeleting display textIndex negb andb].
  change (fullText (mkState false i (Js.sliceTo text (k + 1)) true)) with
    (fullText (mkState false i EmptyString false)).
  rewrite <- Htext.
  rewrite length_neq by (rewrite sliceTo_length; simpl; lia).
  rewrite sliceTo_length by lia.
  replace (Nat.max 0 (k + 1 - 1)) with k by lia.
  reflexivity.
Qed.

Lemma iter_tick_typing (i : nat) (text : string) :
  text = fullText (mkState false i EmptyString false) ->
  forall (k t : nat),
    (k <= String.length text)%nat ->
    Nat.iter k tick (t, mkState false i EmptyString false)
    = (t + k * typingSpeed, mkState false i (Js.sliceTo text k) false)%nat.
Proof.
  intros Htext. induction k as [|k IH]; intros t Hk.
  - simpl. rewrite sliceTo_zero. f_equal. lia.
  - simpl Nat.iter. rewrite IH by lia. rewrite (tick_typing _ _ _ _ Htext) by lia.
    f_equal; [lia|]. f_equal. f_equal. lia.
Qed.

Lemma iter_tick_deleting (i : nat) (text : string) :
  text = fullText (mkState false i EmptyString false) ->
  forall (k t : nat),
    (k <= String.length text)%nat ->
    Nat.iter k tick (t, mkState false i text true)
    = (t + k * deletingSpeed,
       mkState false i (Js.sliceTo text (String.length text - k)) true)%nat.
Proof.
  intros Htext. induction k as [|k IH]; intros t Hk.
  - simpl. rewrite Nat.sub_0_r, sliceTo_all. f_equal. lia.
  - simpl Nat.iter. rewrite IH by lia.
    replace (String.length text - k)%nat with (String.length text - S k + 1)%nat by lia.
    rewrite (tick_deleting _ _ _ _ Htext) by lia.
    f_equal. lia.
Qed.

End Headline.

Section HeadlineCycle.

Import App.

Lemma after_add (n m : nat) (s : State) :
  after (n + m) s = Nat.iter n tick (after m s).
Proof. unfold after. apply Nat.iter_add. Qed.

Lemma fullText_display (started0 : bool) (i : nat) (d d' : string) (b b' : bool) :
  fullText (mkState started0 i d b) = fullText (mkState started0 i d' b').
Proof. reflexivity. Qed.

(** X1. One sentence of the headline, from the empty display at sentence
    [i]: it is typed one character per update, stands complete after as many
    updates as it has characters, is then marked for deletion after the
    pause, loses one character per update, and once the display is empty the
    next sentence, in rotation, starts from the empty display. The whole turn
    takes two updates more than twice the length of the sentence, and the
    delays add up to the pause plus 42 + 28 milliseconds per character. *)
Theorem headline_types_pauses_deletes_and_moves_on :
  forall i : nat,
    let s0 := mkState false i EmptyString false in
    let text := fullText s0 in
    let len := String.length text in
    (forall k : nat, (k <= len)%nat ->
       after k s0 = (k * typingSpeed, mkState false i (Js.sliceTo text k) false)%nat)
    /\ after len s0 = (len * typingSpeed, mkState false i text false)%nat
    /\ after (len + 1) s0 = (len * typingSpeed + pauseMs, mkState false i text true)%nat
    /\ (forall k : nat, (k <= len)%nat ->
          after (len + 1 + k) s0
          = (len * typingSpeed + pauseMs + k * deletingSpeed,
             mkState false i (Js.sliceTo text (len - k)) true)%nat)
    /\ after (2 * len + 2) s0
       = (pauseMs + len * (typingSpeed + deletingSpeed),
          mkState false ((i + 1) mod 3) EmptyString false)%nat.
Proof.
  intros i s0 text len.
  assert (Htext : text = fullText (mkState false i EmptyString false)) by reflexivity.
  assert (Htype : forall k, (k <= len)%nat ->
            after k s0 = (k * typingSpeed, mkState false i (Js.sliceTo text k) false)%nat).
  { intros k Hk. unfold after, s0. rewrite (iter_tick_typing i text Htext k 0 Hk).
    reflexivity. }
  assert (Hfull : after len s0 = (len * typingSpeed, mkState false i text false)%nat).
  { rewrite (Htype len) by lia. unfold len. rewrite sliceTo_all. reflexivity. }
  assert (Hpause : after (len + 1) s0
                   = (len * typingSpeed + pauseMs, mkState false i text true)%nat).
  { replace (len + 1)%nat with (1 + len)%nat by lia.
    rewrite after_add, Hfull. simpl Nat.iter. unfold tick, effect.
    cbn [snd fst started isDeleting display textIndex negb andb].
    rewrite (fullText_display false i text EmptyString false false), <- Htext.
    rewrite String.eqb_refl. reflexivity. }
  assert (Hdel : forall k, (k <= len)%nat ->
            after (len + 1 + k) s0
            = (len * typingSpeed + pauseMs + k * deletingSpeed,
               mkState false i (Js.sliceTo text (len - k)) true)%nat).
  { intros k Hk. replace (len + 1 + k)%nat with (k + (len + 1))%nat by lia.
    rewrite after_add, Hpause. apply (iter_tick_deleting i text Htext k _ Hk). }
  split; [exact Htype|]. split; [exact Hfull|]. split; [exact Hpause|].
  split; [exact Hdel|].
  replace (2 * len + 2)%nat with (1 + (len + 1 + len))%nat by lia.
  rewrite after_add, (Hdel len) by lia.
  rewrite Nat.sub_diag, sliceTo_zero. simpl Nat.iter. unfold tick, effect.
  cbn [snd fst started isDeleting display textIndex negb andb String.eqb].
  f_equal. unfold typingSpeed, deletingSpeed, pauseMs. lia.
Qed.

(** X2. Whatever the number of updates since the page was opened, the
    display is a beginning of the sentence in turn, the sentence index is
    one of the three, and the dashboard has not been entered by the effect;
    and once the dashboard is entered the effect arranges nothing more. *)
Theorem headline_shows_a_prefix_of_the_current_sentence :
  (forall n : nat,
     let s := snd (after n initialState) in
     started s = false
     /\ (textIndex s < 3)%nat
     /\ exists rest : string, fullText s = display s +:+ rest)
  /\ (forall (n : nat) (s : State), after n (enterDashboard s) = (0%nat, enterDashboard s)).
Proof.
  split.
  - induction n as [|n IH]; cbn zeta in *.
    + split; [reflexivity|]. split; [simpl; lia|]. eexists. reflexivity.
    + unfold after in *. simpl Nat.iter.
      destruct (Nat.iter n tick (0%nat, initialState)) as [t s].
      cbn [snd] in IH. destruct IH as (Hst & Hidx & rest & Hrest).
      unfold tick, effect. cbn [snd fst]. rewrite Hst.
      destruct (negb (isDeleting s) && String.eqb (display s) (fullText s)) eqn:E1.
      * cbn [snd started textIndex display]. split; [reflexivity|]. split; [exact Hidx|].
        exists rest. exact Hrest.
      * destruct (isDeleting s && String.eqb (display s) EmptyString) eqn:E2.
        -- cbn [snd started textIndex display]. apply andb_true_iff in E2 as [_ E2].
           apply String.eqb_eq in E2. rewrite E2.
           split; [reflexivity|]. split; [apply Nat.mod_upper_bound; simpl; lia|].
           eexists. reflexivity.
        -- cbn [snd started textIndex display]. split; [reflexivity|]. split; [exact Hidx|].
           destruct (isDeleting s); apply sliceTo_prefix.
  - intros n s. unfold after. induction n as [|n IH]; [reflexivity|].
    simpl Nat.iter. rewrite IH. reflexivity.
Qed.

End HeadlineCycle.

(** ** Loading the insights and drawing the bars *)

Section InsightsLoading.

Import InsightsDashboard.

Lemma known_buckets_hold_occurrences (sample : list Violation) :
  severityCounts sample !! "LOW" = Some (Js.Num (Z.of_nat (occurrences "LOW" sample)))
  /\ severityCounts sample !! "MEDIUM" = Some (Js.Num (Z.of_nat (occurrences "MEDIUM" sample)))
  /\ severityCounts sample !! "HIGH" = Some (Js.Num (Z.of_nat (occurrences "HIGH" sample)))
  /\ severityCounts sample !! "CRITICAL"
     = Some (Js.Num (Z.of_nat (occurrences "CRITICAL" sample))).
Proof.
  unfold severityCounts.
  repeat split; rewrite (foldl_tally_lookup sample _ _ 0%Z); reflexivity.
Qed.

(** X3. A load of the insights takes the loading flag down, whatever the
    answers. When a query is rejected, an answer is not ok or a body is not
    JSON, the statistics, both samples and so both aggregates are what they
    were. Otherwise the cells are set in the order statistics, violations,
    requests, up to the first body that is null: a null violations body
    leaves the new statistics beside the old samples, a null requests body
    leaves the new statistics and violations beside the old requests, and
    with both bodies there all three cells are replaced, an absent list
    giving the empty sample. The charts are drawn afterwards exactly when
    the statistics are there. *)
Theorem insights_load_sets_cells_in_order :
  forall (statsRes : Answer StatsData) (violationsRes : Answer ViolationsData)
         (requestsRes : Answer RequestsData) (s : State),
    let s' := load statsRes violationsRes requestsRes s in
    loading s' = false
    /\ (placeholder s' = false <-> stats s' <> None)
    /\ match answered statsRes violationsRes requestsRes with
       | None =>
           stats s' = stats s /\ violations s' = violations s /\ requests s' = requests s
           /\ severityCounts (violations s') = severityCounts (violations s)
           /\ decisionDistribution (requests s') = decisionDistribution (requests s)
       | Some (a, None, _) =>
           stats s' = a /\ violations s' = violations s /\ requests s' = requests s
       | Some (a, Some b, None) =>
           stats s' = a /\ violations s' = default [] (body_violations b)
           /\ requests s' = requests s
       | Some (a, Some b, Some c) =>
           stats s' = a /\ violations s' = default [] (body_violations b)
           /\ requests s' = default [] (body_requests c)
       end.
Proof.
  intros statsRes violationsRes requestsRes s s'.
  split; [reflexivity|]. split.
  - unfold placeholder. replace (loading s') with false by reflexivity.
    destruct (stats s'); simpl; split; congruence.
  - unfold s', load, tryLoad, answered.
    destruct statsRes as [m1 | [ok1 [|a]]], violationsRes as [m2 | [ok2 [|b]]],
      requestsRes as [m3 | [ok3 [|c]]]; simpl;
      try destruct ok1; try destruct ok2; try destruct ok3; simpl;
      try (repeat split; reflexivity).
    destruct b as [b|], c as [c|]; simpl; repeat split; reflexivity.
Qed.

(** New statistics beside the old sample: the violations body is null. *)
Example null_violations_body_example :
  let fresh := mkStatsData 10 5 3 2 7 1 4 1 in
  let s :=
    load (DashboardApp.Resolved (DashboardApp.mkResponse true (Value (Some fresh))))
      (DashboardApp.Resolved (DashboardApp.mkResponse true (Value None)))
      (DashboardApp.Resolved
         (DashboardApp.mkResponse true (Value (Some (mkRequestsData (Some []))))))
      (mkState None [mkViolation "v1" "LOW"] [] true) in
  stats s = Some fresh /\ violations s = [mkViolation "v1" "LOW"] /\ loading s = false.
Proof. repeat split; reflexivity. Qed.

Lemma severityBars_eq (sample : list Violation) (st : StatsData) :
  severityBars sample st =
  map (fun sev =>
         (sev,
          Some ((inject_Z (Z.of_nat (occurrences sev sample))
                 / inject_Z (Z.max 1 (Z.of_N (totalViolations st)))) * 100)%Q))
      severityOrder.
Proof.
  destruct (known_buckets_hold_occurrences sample) as (Hl & Hm & Hh & Hc).
  unfold severityBars, severityOrder. cbn [map]. rewrite Hl, Hm, Hh, Hc. reflexivity.
Qed.

Lemma width_nonneg (z t : Z) :
  (0 <= z)%Z -> (1 <= t)%Z -> (0 <= (inject_Z z / inject_Z t) * 100)%Q.
Proof.
  intros Hz Ht. apply Qmult_le_0_compat; [|discriminate].
  apply Qle_shift_div_l.
  - change 0%Q with (inject_Z 0). rewrite <- Zlt_Qlt. lia.
  - rewrite Qmult_0_l. change 0%Q with (inject_Z 0). rewrite <- Zle_Qle. exact Hz.
Qed.

Lemma width_zero (z t : Z) :
  (1 <= t)%Z -> ((inject_Z z / inject_Z t) * 100 == 0)%Q <-> z = 0%Z.
Proof.
  intros Ht. unfold Qeq, Qdiv, Qmult, Qinv, inject_Z. simpl.
  destruct t as [|t|t]; try lia. simpl. split; intros H; nia.
Qed.

Lemma width_le (y z t : Z) :
  (1 <= t)%Z -> (y <= z)%Z ->
  ((inject_Z y / inject_Z t) * 100 <= (inject_Z z / inject_Z t) * 100)%Q.
Proof.
  intros Ht Hyz. apply Qmult_le_compat_r; [|discriminate].
  apply Qmult_le_compat_r; [rewrite <- Zle_Qle; exact Hyz|].
  apply Qinv_le_0_compat. change 0%Q with (inject_Z 0). rewrite <- Zle_Qle. lia.
Qed.

Lemma width_full (t : Z) : (1 <= t)%Z -> ((inject_Z t / inject_Z t) * 100 == 100)%Q.
Proof.
  intros Ht. field. intros H. unfold Qeq in H. simpl in H. lia.
Qed.

(** X4. The severity chart has one bar for each of LOW, MEDIUM, HIGH and
    CRITICAL, in this order, and each has a width, whatever the sample and
    the statistics. With the widths taken as the exact quotients: no width
    is negative; a width is zero exactly when the sample has no item of
    that severity; it is at most 100 when the items of that severity are no
    more than max(1, totalViolations); and of two bars the one with fewer
    items is not the wider. *)
Theorem severity_bars_follow_the_counts :
  forall (sample : list Violation) (st : StatsData),
    let total := Z.max 1 (Z.of_N (totalViolations st)) in
    exists width : string -> Q,
      severityBars sample st
      = map (fun sev => (sev, Some (width sev))) ["LOW"; "MEDIUM"; "HIGH"; "CRITICAL"]
      /\ (forall sev : string,
            sev ∈ severityOrder ->
            (0 <= width sev)%Q
            /\ ((width sev == 0)%Q <-> occurrences sev sample = 0%nat)
            /\ ((Z.of_nat (occurrences sev sample) <= total)%Z -> (width sev <= 100)%Q))
      /\ (forall sev sev' : string,
            sev ∈ severityOrder -> sev' ∈ severityOrder ->
            (occurrences sev sample <= occurrences sev' sample)%nat ->
            (width sev <= width sev')%Q).
Proof.
  intros sample st total.
  assert (Ht : (1 <= total)%Z) by (unfold total; lia).
  exists (fun sev => ((inject_Z (Z.of_nat (occurrences sev sample)) / inject_Z total) * 100)%Q).
  split; [rewrite severityBars_eq; reflexivity|]. split.
  - intros sev _. split; [apply width_nonneg; lia|]. split.
    + rewrite (width_zero _ _ Ht). lia.
    + intros Hle. apply (Qle_trans _ ((inject_Z total / inject_Z total) * 100)%Q).
      * apply width_le; assumption.
      * rewrite (width_full total Ht). apply Qle_refl.
  - intros sev sev' _ _ Hle. apply width_le; [exact Ht | lia].
Qed.

End InsightsLoading.

(** ** More on strings *)

Section StringNormalisation.

Lemma lower_char_idem (c : ascii) : Js.lower_char (Js.lower_char c) = Js.lower_char c.
Proof. destruct c as [[] [] [] [] [] [] [] []]; reflexivity. Qed.

Lemma is_white_lower_char (c : ascii) : Js.is_white (Js.lower_char c) = Js.is_white c.
Proof. destruct c as [[] [] [] [] [] [] [] []]; reflexivity. Qed.

Lemma toLowerCase_idem (s : string) : Js.toLowerCase (Js.toLowerCase s) = Js.toLowerCase s.
Proof.
  induction s as [|c s IH]; simpl; [reflexivity|].
  rewrite lower_char_idem, IH. reflexivity.
Qed.

Lemma toLowerCase_trimStart (s : string) :
  Js.toLowerCase (Js.trimStart s) = Js.trimStart (Js.toLowerCase s).
Proof.
  induction s as [|c s IH]; simpl; [reflexivity|].
  rewrite is_white_lower_char. destruct (Js.is_white c); [exact IH | reflexivity].
Qed.

Lemma toLowerCase_trimEnd (s : string) :
  Js.toLowerCase (Js.trimEnd s) = Js.trimEnd (Js.toLowerCase s).
Proof.
  induction s as [|c s IH]; simpl; [reflexivity|].
  rewrite <- IH, is_white_lower_char.
  destruct (Js.trimEnd s) as [|d t]; simpl.
  - destruct (Js.is_white c); reflexivity.
  - reflexivity.
Qed.

Lemma toLowerCase_trim (s : string) :
  Js.toLowerCase (Js.trim s) = Js.trim (Js.toLowerCase s).
Proof. unfold Js.trim. rewrite toLowerCase_trimEnd, toLowerCase_trimStart. reflexivity. Qed.

Lemma trimEnd_idem (s : string) : Js.trimEnd (Js.trimEnd s) = Js.trimEnd s.
Proof.
  induction s as [|c s IH]; simpl; [reflexivity|].
  destruct (Js.trimEnd s) as [|d t] eqn:E.
  - destruct (Js.is_white c) eqn:W; simpl; [reflexivity|]. rewrite W. reflexivity.
  - cbn [Js.trimEnd]. cbn [Js.trimEnd] in IH. rewrite IH. reflexivity.
Qed.

Lemma trimStart_startsBlack (s : string) : startsBlack (Js.trimStart s).
Proof.
  induction s as [|c s IH]; simpl; [exact I|].
  destruct (Js.is_white c) eqn:W; [exact IH | exact W].
Qed.

Lemma trimStart_of_startsBlack (s : string) : startsBlack s -> Js.trimStart s = s.
Proof. destruct s as [|c s]; simpl; [reflexivity|]. intros ->. reflexivity. Qed.

Lemma trimEnd_startsBlack (s : string) : startsBlack s -> startsBlack (Js.trimEnd s).
Proof.
  destruct s as [|c s]; simpl; [exact (fun H => H)|].
  intros W. destruct (Js.trimEnd s); [rewrite W|]; exact W.
Qed.

Lemma trim_idem (s : string) : Js.trim (Js.trim s) = Js.trim s.
Proof.
  unfold Js.trim.
  rewrite (trimStart_of_startsBlack (Js.trimEnd (Js.trimStart s))).
  - apply trimEnd_idem.
  - apply trimEnd_startsBlack, trimStart_startsBlack.
Qed.

Lemma append_assoc (a b c : string) : (a +:+ b) +:+ c = a +:+ (b +:+ c).
Proof.
  induction a as [|x a IH]; [reflexivity|].
  rewrite !append_cons, IH. reflexivity.
Qed.

Lemma Substring_trans (a b c : string) : Substring a b -> Substring b c -> Substring a c.
Proof.
  intros (p & r & ->) (p' & r' & ->). exists (p' +:+ p), (r +:+ r').
  rewrite !append_assoc. reflexivity.
Qed.

End StringNormalisation.

(** ** The violations panel *)

Section ViolationsPanelView.

Import ViolationsPanel.

Lemma filter_length_occurrences (sev : string) (vs : list Violation) :
  length (List.filter (fun item => String.eqb (severity item) sev) vs)
  = InsightsDashboard.occurrences sev (map asTallied vs).
Proof.
  induction vs as [|v vs IH]; [reflexivity|].
  rewrite map_cons, occurrences_cons. cbn [List.filter].
  change (InsightsDashboard.severity (asTallied v)) with (severity v).
  destruct (String.eqb (severity v) sev); simpl; rewrite IH; reflexivity.
Qed.

(** X5. Under the filter ALL the panel lists every fetched violation, in
    the order fetched. Under the filter of one of the four severities it
    lists fetched violations of that severity only, and as many of them as
    the bucket of that severity holds in the tally of the insights for the
    same sample. *)
Theorem severity_filter_agrees_with_tally :
  forall (vs : list Violation) (ld : bool),
    filtered (mkState vs ld "ALL") = vs
    /\ (forall (sev : string) (v : Violation),
          v ∈ filtered (mkState vs ld sev) -> v ∈ vs /\ (sev = "ALL" \/ severity v = sev))
    /\ (forall sev : string,
          sev ∈ InsightsDashboard.severityOrder ->
          InsightsDashboard.severityCounts (map asTallied vs) !! sev
          = Some (Js.Num (Z.of_nat (length (filtered (mkState vs ld sev)))))).
Proof.
  intros vs ld. split; [reflexivity|]. split.
  - intros sev v. unfold filtered. cbn [selectedSeverity violations].
    destruct (String.eqb_spec sev "ALL") as [E|_]; [intros H; split; [exact H | left; exact E]|].
    rewrite list_elem_of_In, filter_In, <- list_elem_of_In, String.eqb_eq.
    intros [Hin Hsev]. split; [exact Hin | right; exact Hsev].
  - intros sev Hsev.
    destruct (known_buckets_hold_occurrences (map asTallied vs)) as (Hl & Hm & Hh & Hc).
    unfold filtered. cbn [selectedSeverity violations].
    unfold InsightsDashboard.severityOrder in Hsev.
    repeat (apply elem_of_cons in Hsev as [-> | Hsev];
            [cbn [String.eqb Ascii.eqb Bool.eqb]; rewrite filter_length_occurrences;
             assumption|]).
    apply elem_of_nil in Hsev. contradiction.
Qed.

(** X6. A refresh of the panel never changes the selected filter and always
    ends the loading notice. When the query fails, by a network error or by
    an answer that is not ok, the fetched violations and so the cards under
    the filter are what they were; when it succeeds they are the violations
    of the answer, none if the answer carries no list. *)
Theorem violations_refresh_keeps_filter_and_survives_failure :
  forall (outcome : DashboardApp.Fetched (option (list Violation))) (s : State),
    let s' := fetchViolations outcome s in
    selectedSeverity s' = selectedSeverity s
    /\ loading s' = false
    /\ render s' <> LoadingNotice
    /\ match outcome with
       | DashboardApp.Resolved (DashboardApp.mkResponse true body) =>
           violations s' = default [] body
       | _ => violations s' = violations s /\ filtered s' = filtered s
       end.
Proof.
  intros outcome s s'. unfold s', fetchViolations.
  destruct outcome as [m | [[] body]]; simpl;
    (split; [reflexivity|]; split; [reflexivity|]; split;
     [unfold render; simpl; destruct (length _ =? 0)%nat; discriminate|]);
    try reflexivity; split; reflexivity.
Qed.

End ViolationsPanelView.

(** ** The request list: refresh, filters and stars *)

Section RequestListBehaviour.

Import RequestList.

Variable getTime : string -> Js.number.
Variable localeCompare : string -> string -> Z.

Local Abbreviation view s :=
  (visibleRequests getTime localeCompare (requests s) (search s) (showStarredOnly s)
     (sortBy s) (starredIds s)).

(** X7. A refresh of the list ends the spinner and leaves the query, the
    sort key, the stars and the starred-only switch alone. A failed refresh
    keeps the requests fetched before and records the message (the fixed one
    for an answer that is not ok, which then fills the screen); a successful
    one replaces the requests and clears the error, so that a success after
    a failure leaves the same state as the success alone. *)
Theorem request_refresh_keeps_rows_on_failure_and_recovers :
  forall (outcome : DashboardApp.Fetched (list Request)) (s : State),
    let s' := fetchRequests outcome s in
    (loading s' = false /\ search s' = search s /\ sortBy s' = sortBy s
     /\ starredIds s' = starredIds s /\ showStarredOnly s' = showStarredOnly s)
    /\ match outcome with
       | DashboardApp.Resolved (DashboardApp.mkResponse true rs) =>
           requests s' = rs /\ error s' = None
       | DashboardApp.Resolved (DashboardApp.mkResponse false _) =>
           requests s' = requests s
           /\ render getTime localeCompare s' = ErrorPanel "Failed to fetch requests"
       | DashboardApp.Rejected message =>
           requests s' = requests s /\ error s' = Some message
       end
    /\ (forall rs : list Request,
          fetchRequests (DashboardApp.Resolved (DashboardApp.mkResponse true rs)) s'
          = fetchRequests (DashboardApp.Resolved (DashboardApp.mkResponse true rs)) s).
Proof.
  intros outcome s s'. unfold s', fetchRequests, tryFetchRequests.
  destruct outcome as [m | [[] body]]; simpl; repeat split; reflexivity.
Qed.

Lemma filtered_all (l : list Request) (srch : string) (stars : gset string) :
  Js.trim srch = EmptyString -> filtered l srch false stars = l.
Proof.
  intros Hblank. unfold filtered. rewrite Hblank. simpl Js.toLowerCase.
  induction l as [|r l IH]; [reflexivity|].
  cbn [List.filter]. rewrite IH. reflexivity.
Qed.

(** X8. With a query that is blank and the starred-only switch off nothing
    is filtered out: the view is a rearrangement of the fetched requests,
    and when requests were fetched without error the screen shows rows,
    never the no-match notice. *)
Theorem blank_query_shows_every_request :
  forall s : State,
    Js.trim (search s) = EmptyString ->
    showStarredOnly s = false ->
    view s ≡ₚ requests s
    /\ (loading s = false -> Js.truthy (error s) = false -> requests s <> [] ->
        exists rows, render getTime localeCompare s = Rows rows /\ rows ≡ₚ requests s).
Proof.
  intros s Hblank Hoff.
  assert (Hperm : view s ≡ₚ requests s).
  { rewrite visible_perm, Hoff, (filtered_all _ _ _ Hblank). reflexivity. }
  split; [exact Hperm|].
  intros Hl He Hne. unfold render. rewrite Hl, He.
  destruct (requests s) as [|r rs] eqn:Er; [contradiction|]. cbn [length Nat.eqb].
  rewrite <- Er in *.
  destruct (view s) as [|v vs] eqn:Ev.
  - rewrite Er in Hperm. exfalso. exact (Permutation_nil_cons Hperm).
  - cbn [length Nat.eqb]. exists (v :: vs). split; [reflexivity | exact Hperm].
Qed.

(** X9. With the starred-only switch on, every row shown has a truthy star
    lookup: its id is in the star set or names a property that objects
    inherit. With no star set, only requests of the second kind are shown,
    and nothing is shown when no fetched id is of that kind. *)
Theorem starred_only_shows_starred_requests_only :
  forall (l : list Request) (srch : string) (key : SortKey.t) (stars : gset string),
    (forall r : Request,
       r ∈ visibleRequests getTime localeCompare l srch true key stars ->
       id r ∈ stars \/ Js.inherited (id r) = true)
    /\ (forall r : Request,
          r ∈ visibleRequests getTime localeCompare l srch true key ∅ ->
          Js.inherited (id r) = true)
    /\ (Forall (fun r => Js.inherited (id r) = false) l ->
        visibleRequests getTime localeCompare l srch true key ∅ = []).
Proof.
  intros l srch key stars.
  assert (Hin : forall stars' r,
            r ∈ visibleRequests getTime localeCompare l srch true key stars' ->
            r ∈ l /\ (id r ∈ stars' \/ Js.inherited (id r) = true)).
  { intros stars' r. rewrite visible_perm. unfold filtered.
    rewrite !list_elem_of_In, filter_In, andb_true_iff. unfold matchesStarred.
    simpl negb. rewrite orb_false_l, isStarred_true. tauto. }
  assert (Hnone : forall r,
            r ∈ visibleRequests getTime localeCompare l srch true key ∅ ->
            r ∈ l /\ Js.inherited (id r) = true).
  { intros r Hr. destruct (Hin ∅ r Hr) as [Hl [H | H]]; [|split; assumption].
    exfalso. exact (not_elem_of_empty (C := gset string) _ H). }
  split; [intros r Hr; apply (Hin stars r Hr)|].
  split; [intros r Hr; apply (Hnone r Hr)|].
  intros Hown.
  destruct (visibleRequests getTime localeCompare l srch true key ∅) as [|r rs] eqn:E;
    [reflexivity|].
  exfalso. destruct (Hnone r) as [Hl Hinh]; [rewrite ?E; left|].
  rewrite list.Forall_forall in Hown. rewrite (Hown r Hl) in Hinh. discriminate.
Qed.

Lemma filtered_ignores_stars (l : list Request) (srch : string) (stars stars' : gset string) :
  filtered l srch false stars = filtered l srch false stars'.
Proof. reflexivity. Qed.

(** X10. Clicking a star fetches nothing and changes no request; with the
    starred-only switch off it adds no row and removes none: the view after
    the click is a rearrangement of the view before. *)
Theorem star_click_keeps_the_rows :
  forall (s : State) (requestId : string),
    showStarredOnly s = false ->
    requests (clickStar requestId s) = requests s
    /\ view (clickStar requestId s) ≡ₚ view s.
Proof.
  intros s requestId Hoff. split; [reflexivity|].
  rewrite !visible_perm. cbn [clickStar requests search showStarredOnly starredIds].
  rewrite Hoff. reflexivity.
Qed.

(** The query as the filter uses it. *)
Local Abbreviation norm srch := (Js.toLowerCase (Js.trim srch)).

(** X12. A query that contains another one, both trimmed and lower-cased,
    shows no request that the other does not show. *)
Theorem narrower_query_shows_no_new_request :
  forall (l : list Request) (wide narrow : string) (only : bool) (stars : gset string)
         (r : Request),
    Substring (norm wide) (norm narrow) ->
    r ∈ filtered l narrow only stars -> r ∈ filtered l wide only stars.
Proof.
  intros l wide narrow only stars r Hsub. unfold filtered.
  rewrite !list_elem_of_In, !filter_In, !andb_true_iff,
    !(matchesSearch_spec (fun _ => Js.NaN) (fun _ _ => 0%Z)).
  intros (Hin & (field & Hfield & Hmatch) & Hstar).
  split; [exact Hin|]. split; [|exact Hstar].
  exists field. split; [exact Hfield|].
  exact (Substring_trans _ _ _ Hsub Hmatch).
Qed.

Lemma norm_toLowerCase (srch : string) : norm (Js.toLowerCase srch) = norm srch.
Proof. rewrite <- toLowerCase_trim. apply toLowerCase_idem. Qed.

Lemma norm_trim (srch : string) : norm (Js.trim srch) = norm srch.
Proof. rewrite trim_idem. reflexivity. Qed.

(** X13. The letter case of the query and the white space around it do not
    matter: the lower-cased query and the trimmed query give the same view
    as the query itself. *)
Theorem view_ignores_case_and_padding_of_query :
  forall (l : list Request) (srch : string) (only : bool) (key : SortKey.t)
         (stars : gset string),
    visibleRequests getTime localeCompare l (Js.toLowerCase srch) only key stars
    = visibleRequests getTime localeCompare l srch only key stars
    /\ visibleRequests getTime localeCompare l (Js.trim srch) only key stars
       = visibleRequests getTime localeCompare l srch only key stars.
Proof.
  intros l srch only key stars. unfold visibleRequests, filtered.
  rewrite norm_toLowerCase, norm_trim. split; reflexivity.
Qed.

End RequestListBehaviour.

(** X11. Toggling the star of a request changes the membership of no other
    id. When the id names no property that objects inherit, the toggle flips
    the membership of the id, and toggling twice gives the star set back.
    When the id names an inherited property, the lookup is truthy whatever
    the set holds, so every toggle takes the deleting branch: the id is not
    in the set afterwards. *)
Theorem star_toggle_flips_one_id :
  forall (requestId : string) (stars : gset string),
    (forall other : string,
       other <> requestId ->
       (other ∈ RequestList.toggleStar requestId stars <-> other ∈ stars))
    /\ (Js.inherited requestId = false ->
        (requestId ∈ RequestList.toggleStar requestId stars <-> requestId ∉ stars)
        /\ RequestList.toggleStar requestId (RequestList.toggleStar requestId stars) = stars)
    /\ (Js.inherited requestId = true ->
        (requestId ∉ RequestList.toggleStar requestId stars)
        /\ RequestList.toggleStar requestId stars = stars ∖ {[requestId]}).
Proof.
  intros requestId stars. split; [|split].
  - intros other Hne. apply toggleStar_other. exact Hne.
  - intros Hown. split.
    + apply toggleStar_flips. exact Hown.
    + apply toggleStar_involutive. exact Hown.
  - intros Hinh. split.
    + apply toggleStar_inherited. exact Hinh.
    + unfold RequestList.toggleStar, RequestList.lookupStar.
      rewrite Hinh, orb_true_r. reflexivity.
Qed.

(** ** The chat and the event stream, further *)

Section ChatSessions.

Import DashboardApp.

(** The router on any world: the state is kept, the log grows by at most one
    fetch, of one of the four summary queries. *)
Lemma router_frame (be : Backend) (input : string) (w : World) :
  exists (urls : list string) (c : Completion string),
    (length urls <= 1)%nat
    /\ (forall u, u ∈ urls -> u ∈ summaryEndpoints)
    /\ generateAssistantReply be input w = (mkWorld (st w) (log w ++ map Fetch urls), c).
Proof.
  unfold generateAssistantReply.
  destruct (Js.includes _ "stat");
    [|destruct (_ || _); [|destruct (Js.includes _ "request");
        [|destruct (Js.includes _ "violation")]]].
  - rewrite replyStats_run. eexists [_], _.
    split; [simpl; lia|]. split; [|reflexivity].
    intros u Hu. apply list_elem_of_singleton in Hu as ->. unfold summaryEndpoints. set_solver.
  - rewrite replyBlocked_run. eexists [_], _.
    split; [simpl; lia|]. split; [|reflexivity].
    intros u Hu. apply list_elem_of_singleton in Hu as ->. unfold summaryEndpoints. set_solver.
  - rewrite replyRequests_run. eexists [_], _.
    split; [simpl; lia|]. split; [|reflexivity].
    intros u Hu. apply list_elem_of_singleton in Hu as ->. unfold summaryEndpoints. set_solver.
  - rewrite replyViolations_run. eexists [_], _.
    split; [simpl; lia|]. split; [|reflexivity].
    intros u Hu. apply list_elem_of_singleton in Hu as ->. unfold summaryEndpoints. set_solver.
  - exists [], (Return helpText). split; [simpl; lia|]. split.
    + intros u Hu. apply elem_of_nil in Hu. contradiction.
    + unfold ret. simpl. rewrite app_nil_r. destruct w; reflexivity.
Qed.

(** What a send does, in either case of its guard. *)
Lemma sendMessage_run (be : Backend) (fr_user fr_bot : Fresh) (w : World) :
  exists (urls : list string) (c : Completion string),
    (length urls <= 1)%nat
    /\ (forall u, u ∈ urls -> u ∈ summaryEndpoints)
    /\ sendMessage be fr_user fr_bot w =
       if String.eqb (Js.trim (chatInput (st w))) EmptyString || chatLoading (st w)
       then (w, Return tt)
       else
         let userMsg :=
           mkMessage (randomUUID fr_user) user (Js.trim (chatInput (st w))) (now fr_user) in
         let botMsg := mkMessage (randomUUID fr_bot) assistant (botText c) (now fr_bot) in
         (mkWorld
            (mkState (refreshTrigger (st w)) (violations (st w)) EmptyString false
               (messages (st w) ++ [userMsg; botMsg]))
            (log w ++ [Append userMsg] ++ map Fetch urls ++ [Append botMsg]),
          Return tt).
Proof.
  set (input := Js.trim (chatInput (st w))).
  set (userMsg := mkMessage (randomUUID fr_user) user input (now fr_user)).
  set (w1 := mkWorld
               (setChatLoading true (setChatInput EmptyString
                  (setMessages (fun prev => prev ++ [userMsg]) (st w))))
               (log w ++ [Append userMsg])).
  destruct (router_frame be input w1) as (urls & c & Hlen & Hurls & Hgen).
  exists urls, c. split; [exact Hlen|]. split; [exact Hurls|].
  unfold sendMessage. fold input.
  destruct (String.eqb input EmptyString || chatLoading (st w)); [reflexivity|].
  cbv zeta. run_monad. unfold w1, userMsg in Hgen |- *. rewrite Hgen.
  destruct c; run_monad;
    unfold setChatLoading, setMessages, setChatInput; simpl;
    rewrite <- !app_assoc; reflexivity.
Qed.

(** X14. A send with a blank input, or while an exchange is pending, does
    nothing at all: no message, no fetch, the state as it was. *)
Theorem blank_or_pending_send_does_nothing :
  forall (be : Backend) (fr_user fr_bot : Fresh) (w : World),
    Js.trim (chatInput (st w)) = EmptyString \/ chatLoading (st w) = true ->
    sendMessage be fr_user fr_bot w = (w, Return tt).
Proof.
  intros be fr_user fr_bot w H. unfold sendMessage.
  destruct H as [H | H]; rewrite H; [reflexivity|].
  rewrite orb_true_r. reflexivity.
Qed.

(** X15. The router never touches the state of the component and never
    writes to the conversation; it makes one fetch at most, and only of one
    of its four summary queries; and the letter case of the input does not
    matter to it. *)
Theorem router_only_reads_one_summary :
  forall (be : Backend) (input : string) (w : World),
    (exists (urls : list string) (c : Completion string),
       (length urls <= 1)%nat
       /\ (forall u, u ∈ urls -> u ∈ summaryEndpoints)
       /\ generateAssistantReply be input w = (mkWorld (st w) (log w ++ map Fetch urls), c))
    /\ generateAssistantReply be (Js.toLowerCase input) = generateAssistantReply be input.
Proof.
  intros be input w. split; [apply router_frame|].
  unfold generateAssistantReply. rewrite toLowerCase_idem. reflexivity.
Qed.

Lemma takeTurn_run (w : World) (t : Turn) :
  chatLoading (st w) = false ->
  exists (urls : list string) (c : Completion string),
    takeTurn w t =
    if String.eqb (Js.trim (question t)) EmptyString
    then mkWorld (setChatInput (question t) (st w)) (log w)
    else
      let userMsg :=
        mkMessage (randomUUID (userFresh t)) user (Js.trim (question t)) (now (userFresh t)) in
      let botMsg :=
        mkMessage (randomUUID (botFresh t)) assistant (botText c) (now (botFresh t)) in
      mkWorld
        (mkState (refreshTrigger (st w)) (violations (st w)) EmptyString false
           (messages (st w) ++ [userMsg; botMsg]))
        (log w ++ [Append userMsg] ++ map Fetch urls ++ [Append botMsg]).
Proof.
  intros Hload. unfold takeTurn.
  destruct (sendMessage_run (answering t) (userFresh t) (botFresh t)
              (mkWorld (setChatInput (question t) (st w)) (log w)))
    as (urls & c & _ & _ & Hsend).
  exists urls, c. rewrite Hsend. cbn [st log setChatInput chatInput chatLoading
    refreshTrigger violations messages]. rewrite Hload, orb_false_r.
  destruct (String.eqb (Js.trim (question t)) EmptyString); reflexivity.
Qed.

(** The roles a turn adds to the conversation. *)
Lemma converse_roles (turns : list Turn) :
  forall w : World,
    chatLoading (st w) = false ->
    chatLoading (st (converse w turns)) = false
    /\ refreshTrigger (st (converse w turns)) = refreshTrigger (st w)
    /\ violations (st (converse w turns)) = violations (st w)
    /\ map role (messages (st (converse w turns)))
       = map role (messages (st w))
         ++ flat_map (fun t => if String.eqb (Js.trim (question t)) EmptyString
                               then [] else [user; assistant]) turns
    /\ omap (fun m => match role m with user => Some (text m) | assistant => None end)
         (messages (st (converse w turns)))
       = omap (fun m => match role m with user => Some (text m) | assistant => None end)
           (messages (st w))
         ++ flat_map (fun t => if String.eqb (Js.trim (question t)) EmptyString
                               then [] else [Js.trim (question t)]) turns.
Proof.
  induction turns as [|t turns IH]; intros w Hload.
  - simpl. rewrite !app_nil_r. repeat split; try reflexivity. exact Hload.
  - change (converse w (t :: turns)) with (converse (takeTurn w t) turns).
    destruct (takeTurn_run w t Hload) as (urls & c & Hturn).
    cbn [flat_map].
    destruct (String.eqb (Js.trim (question t)) EmptyString) eqn:E; rewrite Hturn.
    + destruct (IH (mkWorld (setChatInput (question t) (st w)) (log w)) Hload)
        as (H1 & H2 & H3 & H4 & H5).
      rewrite H1, H2, H3, H4, H5. repeat split; reflexivity.
    + cbv zeta.
      match goal with |- context [converse ?w' turns] =>
        destruct (IH w' eq_refl) as (H1 & H2 & H3 & H4 & H5) end.
      rewrite H1, H2, H3, H4, H5. cbn [st messages refreshTrigger violations].
      rewrite map_app, omap_app. cbn [map omap role text].
      rewrite <- !app_assoc. repeat split; reflexivity.
Qed.

(** X16. However many questions are typed and sent, blank ones included,
    the conversation is the greeting followed by one user message and one
    assistant message for each question that is not blank, in this order;
    the user messages carry the trimmed questions; no exchange is left
    pending; and the refresh counter and the violation buffer are not
    touched. *)
Theorem conversation_alternates_user_and_assistant :
  forall (fr0 : Fresh) (turns : list Turn),
    let s0 := initialState fr0 in
    let w := converse (mkWorld s0 []) turns in
    map role (messages (st w))
    = assistant :: flat_map (fun t => if String.eqb (Js.trim (question t)) EmptyString
                                      then [] else [user; assistant]) turns
    /\ omap (fun m => match role m with user => Some (text m) | assistant => None end)
         (messages (st w))
       = flat_map (fun t => if String.eqb (Js.trim (question t)) EmptyString
                            then [] else [Js.trim (question t)]) turns
    /\ chatLoading (st w) = false
    /\ refreshTrigger (st w) = refreshTrigger s0
    /\ violations (st w) = violations s0.
Proof.
  intros fr0 turns s0 w.
  destruct (converse_roles turns (mkWorld (initialState fr0) []) eq_refl)
    as (H1 & H2 & H3 & H4 & H5).
  fold w in H1, H2, H3, H4, H5. repeat split; assumption.
Qed.

End ChatSessions.

Section BufferContents.

Import DashboardApp.

Lemma truthy_nonempty (s : string) : Js.truthy (Some s) = true -> s <> EmptyString.
Proof. simpl. intros H ->. discriminate. Qed.

(** What [normalize] lets through, and what it makes of it. *)
Lemma normalize_Some (fr : Fresh) (incoming : option PartialViolation) (v : Violation) :
  normalize fr incoming = Some v ->
  exists inc,
    incoming = Some inc
    /\ p_type inc = Some (vtype v) /\ vtype v <> EmptyString
    /\ p_description inc = Some (description v) /\ description v <> EmptyString
    /\ p_severity inc = Some (severity v) /\ severity v <> EmptyString
    /\ evidence v = p_evidence inc /\ suggestedFix v = p_suggestedFix inc
    /\ id v = randomUUID fr /\ detectedAt v = now fr.
Proof.
  unfold normalize. destruct incoming as [inc|]; [|discriminate].
  destruct (Js.truthy (p_type inc)) eqn:Ht; [|discriminate].
  destruct (Js.truthy (p_description inc)) eqn:Hd; [|discriminate].
  destruct (Js.truthy (p_severity inc)) eqn:Hs; [|discriminate].
  simpl. destruct (p_type inc) as [t|] eqn:Et; [|discriminate].
  destruct (p_description inc) as [d|] eqn:Ed; [|discriminate].
  destruct (p_severity inc) as [sv|] eqn:Es; [|discriminate].
  intros [= <-]. exists inc. simpl.
  repeat split; try reflexivity; try assumption; apply truthy_nonempty; assumption.
Qed.

Lemma buffer_from_start (fr0 : Fresh) (acts : list Action) :
  violations (run (initialState fr0) acts) = take 8 (reverse (omap ingested acts)).
Proof.
  rewrite violations_run by (simpl; lia). simpl. rewrite app_nil_r. reflexivity.
Qed.

(** X17. Every violation in the live buffer comes from a
    [violation:detected] event of the run whose payload carried a type, a
    description and a severity that are not empty; it has these three, the
    evidence and the suggested fix of the payload, and the identifier and
    the time that the platform handed out when the event arrived, whatever
    identifier and time the payload carried. *)
Theorem buffered_violations_come_from_well_formed_events :
  forall (fr0 : Fresh) (acts : list Action) (v : Violation),
    v ∈ violations (run (initialState fr0) acts) ->
    exists (fr : Fresh) (ev : Event) (inc : PartialViolation),
      LastEvent fr (Some ev) ∈ acts
      /\ type ev = "violation:detected"
      /\ violation (data ev) = Some inc
      /\ p_type inc = Some (vtype v) /\ vtype v <> EmptyString
      /\ p_description inc = Some (description v) /\ description v <> EmptyString
      /\ p_severity inc = Some (severity v) /\ severity v <> EmptyString
      /\ evidence v = p_evidence inc /\ suggestedFix v = p_suggestedFix inc
      /\ id v = randomUUID fr /\ detectedAt v = now fr.
Proof.
  intros fr0 acts v Hv. rewrite buffer_from_start in Hv.
  assert (Hin : v ∈ omap ingested acts).
  { apply elem_of_reverse. apply elem_of_take in Hv as (i & Hi & _).
    apply list_elem_of_lookup. exists i. exact Hi. }
  apply list_elem_of_omap in Hin as (a & Ha & Hing).
  destruct a as [fr [ev|]|]; simpl in Hing; try discriminate.
  destruct (String.eqb_spec (type ev) "violation:detected") as [Ht|_]; [|discriminate].
  apply normalize_Some in Hing as (inc & Hinc & Hrest).
  exists fr, ev, inc. split; [exact Ha|]. split; [exact Ht|]. split; [exact Hinc|].
  exact Hrest.
Qed.

Lemma sublist_map {A B : Type} (f : A -> B) (l k : list A) :
  l `sublist_of` k -> map f l `sublist_of` map f k.
Proof. induction 1; simpl; constructor; assumption. Qed.

Lemma ingested_ids_sublist (acts : list Action) :
  map id (omap ingested acts) `sublist_of` freshIds acts.
Proof.
  unfold freshIds. induction acts as [|a acts IH]; [constructor|].
  cbn [omap list_omap]. fold (omap ingested acts).
  destruct a as [fr [ev|]|]; cbn [ingested].
  - destruct (String.eqb (type ev) "violation:detected").
    + destruct (normalize fr (violation (data ev))) as [v|] eqn:E.
      * apply normalize_Some in E as (inc & _ & _ & _ & _ & _ & _ & _ & _ & _ & Hid & _).
        cbn [map]. rewrite Hid. apply sublist_skip. exact IH.
      * apply sublist_cons. exact IH.
    + apply sublist_cons. exact IH.
  - exact IH.
  - exact IH.
Qed.

(** X18. When the identifiers the platform hands out to the events of a run
    are pairwise different, so are the identifiers of the violations in the
    buffer, which the list of cards uses as keys. *)
Theorem buffer_ids_are_distinct :
  forall (fr0 : Fresh) (acts : list Action),
    NoDup (freshIds acts) ->
    NoDup (map id (violations (run (initialState fr0) acts))).
Proof.
  intros fr0 acts Hnd. rewrite buffer_from_start.
  apply (sublist_NoDup _ (map id (reverse (omap ingested acts))));
    [|apply sublist_map, sublist_take].
  rewrite (Permutation_map id (reverse_Permutation (omap ingested acts))).
  apply (sublist_NoDup _ (freshIds acts)); [exact Hnd | apply ingested_ids_sublist].
Qed.

(** X19. The event stream and the chat do not touch each other's state: no
    action of the stream changes the input box, the loading flag or the
    conversation, and no send changes the refresh counter or the buffer.
    And no event both raises the counter and changes the buffer. *)
Theorem events_and_chat_do_not_interfere :
  (forall (s : State) (a : Action),
     chatInput (step s a) = chatInput s
     /\ chatLoading (step s a) = chatLoading s
     /\ messages (step s a) = messages s)
  /\ (forall (be : Backend) (fr_user fr_bot : Fresh) (w : World),
        refreshTrigger (st (fst (sendMessage be fr_user fr_bot w))) = refreshTrigger (st w)
        /\ violations (st (fst (sendMessage be fr_user fr_bot w))) = violations (st w))
  /\ (forall (fr : Fresh) (ev : Event) (s : State),
        refreshTrigger (onLastEvent fr (Some ev) s) = refreshTrigger s
        \/ violations (onLastEvent fr (Some ev) s) = violations s).
Proof.
  split; [|split].
  - intros s a. destruct a as [fr [ev|]|]; simpl; try (repeat split; reflexivity).
    destruct (_ || _); destruct (String.eqb (type ev) "violation:detected");
      try destruct (normalize fr (violation (data ev))); repeat split; reflexivity.
  - intros be fr_user fr_bot w.
    destruct (sendMessage_run be fr_user fr_bot w) as (urls & c & _ & _ & Hsend).
    rewrite Hsend. destruct (_ || _); split; reflexivity.
  - intros fr ev s. unfold onLastEvent.
    destruct (String.eqb_spec (type ev) "violation:detected") as [Ht|_].
    + left. rewrite Ht. simpl.
      destruct (normalize fr (violation (data ev))); reflexivity.
    + right. destruct (_ || _); reflexivity.
Qed.

End BufferContents.

(** ** The further properties on sample inputs *)

Section MoreSamples.

(** A blank query over the three sample requests. *)
Lemma blank_query_example :
  let s := RequestList.mkState Sample.requests false None "  " SortKey.newest {["r1"]} false in
  Js.trim (RequestList.search s) = EmptyString
  /\ RequestList.showStarredOnly s = false
  /\ RequestList.visibleRequests RequestList.sampleGetTime RequestList.codeUnitCompare
       (RequestList.requests s) (RequestList.search s) (RequestList.showStarredOnly s)
       (RequestList.sortBy s) (RequestList.starredIds s)
     ≡ₚ RequestList.requests s.
Proof.
  split; [reflexivity|]. split; [reflexivity|].
  apply (blank_query_shows_every_request RequestList.sampleGetTime RequestList.codeUnitCompare
           (RequestList.mkState Sample.requests false None "  " SortKey.newest {["r1"]} false));
    reflexivity.
Defined.

(** Starring the second request while all requests are shown. *)
Lemma star_click_example :
  let s := RequestList.mkState Sample.requests false None EmptyString SortKey.oldest ∅ false in
  RequestList.showStarredOnly s = false
  /\ RequestList.requests (RequestList.clickStar "r2" s) = RequestList.requests s.
Proof.
  split; [reflexivity|].
  apply (star_click_keeps_the_rows RequestList.sampleGetTime RequestList.codeUnitCompare
           (RequestList.mkState Sample.requests false None EmptyString SortKey.oldest ∅ false)
           "r2" eq_refl).
Defined.

(** The query a2, typed with blanks and a capital, against the query a. *)
Lemma narrower_query_example :
  Substring (Js.toLowerCase (Js.trim "a")) (Js.toLowerCase (Js.trim " A2 "))
  /\ Sample.r2 ∈ RequestList.filtered Sample.requests " A2 " false ∅
  /\ Sample.r2 ∈ RequestList.filtered Sample.requests "a" false ∅.
Proof.
  assert (Hsub : Substring (Js.toLowerCase (Js.trim "a")) (Js.toLowerCase (Js.trim " A2 "))).
  { exists EmptyString, "2". reflexivity. }
  assert (Hin : Sample.r2 ∈ RequestList.filtered Sample.requests " A2 " false ∅).
  { apply list_elem_of_In. simpl. left. reflexivity. }
  split; [exact Hsub|]. split; [exact Hin|].
  exact (narrower_query_shows_no_new_request Sample.requests "a" " A2 " false ∅ Sample.r2
           Hsub Hin).
Defined.

(** Sending three blanks. *)
Lemma blank_send_example :
  (Js.trim (DashboardApp.chatInput (DashboardApp.st (Sample.asking "   "))) = EmptyString
   \/ DashboardApp.chatLoading (DashboardApp.st (Sample.asking "   ")) = true)
  /\ DashboardApp.sendMessage Sample.backend (Sample.fresh 1) (Sample.fresh 2)
       (Sample.asking "   ")
     = (Sample.asking "   ", DashboardApp.Return tt).
Proof.
  assert (H : Js.trim (DashboardApp.chatInput (DashboardApp.st (Sample.asking "   ")))
              = EmptyString
              \/ DashboardApp.chatLoading (DashboardApp.st (Sample.asking "   ")) = true).
  { left. reflexivity. }
  split; [exact H|].
  exact (blank_or_pending_send_does_nothing Sample.backend (Sample.fresh 1) (Sample.fresh 2)
           (Sample.asking "   ") H).
Defined.

(** The latest of three buffered violations. *)
Lemma buffered_violation_example :
  let v := DashboardApp.mkViolation "uuid-3" "policy" "blocked call" "CRITICAL" None None
             "time-3" in
  v ∈ DashboardApp.violations
        (DashboardApp.run (DashboardApp.initialState (Sample.fresh 0)) Sample.threeDetected)
  /\ DashboardApp.vtype v <> EmptyString
  /\ DashboardApp.severity v <> EmptyString.
Proof.
  assert (Hin : DashboardApp.mkViolation "uuid-3" "policy" "blocked call" "CRITICAL" None None
                  "time-3"
                ∈ DashboardApp.violations
                    (DashboardApp.run (DashboardApp.initialState (Sample.fresh 0))
                       Sample.threeDetected)).
  { apply list_elem_of_In. simpl. left. reflexivity. }
  split; [exact Hin|].
  destruct (buffered_violations_come_from_well_formed_events (Sample.fresh 0)
              Sample.threeDetected _ Hin)
    as (fr & ev & inc & _ & _ & _ & _ & Ht & _ & _ & _ & Hs & _).
  split; [exact Ht | exact Hs].
Defined.

(** Nine events with nine different identifiers. *)
Lemma buffer_ids_distinct_example :
  NoDup (DashboardApp.freshIds Sample.nineDetected)
  /\ NoDup (map DashboardApp.id
              (DashboardApp.violations
                 (DashboardApp.run (DashboardApp.initialState (Sample.fresh 0))
                    Sample.nineDetected))).
Proof.
  assert (H : NoDup (DashboardApp.freshIds Sample.nineDetected)).
  { compute_done. }
  split; [exact H|].
  exact (buffer_ids_are_distinct (Sample.fresh 0) Sample.nineDetected H).
Defined.

End MoreSamples.
